(** * Task management controller: a shallow embedding and its properties

    The browser script [static/js/task_manage.js] (function
    [initTaskManagement]) keeps a task collection, a sort field and
    direction, a selected task id and a detail-visibility flag in closure
    variables, talks to a REST backend with [fetch] and renders a table.
    This development embeds the parts of that script that the testable
    properties of the specification speak about:

    - [formatDate] (lines 21-33),
    - [loadTasks] and [renderTasksTable] (lines 178-196 and 221-239),
    - [closeTaskDetail] and [handleTaskRowClick] (lines 407-428),
    - [handleTaskSubmission] (lines 575-643, and the validating variant of
      [task_manage copy.js], lines 2277-2306),
    - [setupSorting] and [sortTasks] (lines 665-691),
    - [deleteTask], which only [task_manage copy.js] has (lines 2052-2088).

    Conventions.  A JavaScript string is a [string] whose characters are
    its code units (code units below 256).  The closure variables become the
    fields of a record [State]; what the script does to the outside world
    (alerts, requests, the table body) is recorded in that record too. *)

From Stdlib Require Import ZArith NArith List String Ascii Bool Lia.
From Stdlib Require Import Permutation Sorted DecimalString.
Import ListNotations.

Local Open Scope string_scope.
Local Open Scope Z_scope.

(** ** JavaScript values of the scalar task fields *)

(** A text field of a task object as the backend's JSON delivers it: absent
    ([undefined]), [null], or a string. *)
Inductive jsval : Type :=
| JUndefined
| JNull
| JString (s : string).

(** A JavaScript number as far as the controller computes with numbers:
    [NaN] or an integer. *)
Inductive jsnum : Type :=
| NaN
| Int (z : Z).

(** [ToBoolean] on a text field: [undefined], [null] and [''] are falsy. *)
Definition truthy (v : jsval) : bool :=
  match v with
  | JString s => negb (s =? "")%string
  | _ => false
  end.

(** [v || ''] for a text field [v]. *)
Definition or_empty (v : jsval) : string :=
  match v with
  | JString s => s
  | _ => ""
  end.

(** [a || b] on text fields. *)
Definition js_or (a b : jsval) : jsval := if truthy a then a else b.

(** [ToString] of a text field, as [table[v]] and [parseInt(v)] apply it to
    their argument. *)
Definition ToString (v : jsval) : string :=
  match v with
  | JUndefined => "undefined"
  | JNull => "null"
  | JString s => s
  end.

(** *** Strings *)

(** [String.prototype.toLowerCase] on code units below 256: the letters
    A-Z and the Latin-1 capitals U+00C0-U+00DE (but not the multiplication
    sign U+00D7) move up by 32. *)
Definition lower_unit (c : ascii) : ascii :=
  let n := N_of_ascii c in
  if ((65 <=? n) && (n <=? 90))%N then ascii_of_N (n + 32)
  else if ((192 <=? n) && (n <=? 222) && negb (n =? 215))%N then ascii_of_N (n + 32)
  else c.

Fixpoint toLowerCase (s : string) : string :=
  match s with
  | EmptyString => EmptyString
  | String c s' => String (lower_unit c) (toLowerCase s')
  end.

(** The relational operator [<] on two strings: lexicographic on code
    units. *)
Definition string_lt (a b : string) : bool := String.ltb a b.

(** ** [Array.prototype.sort] with a comparison function

    ECMAScript requires the sort to be stable and leaves the order to the
    engine only where the comparison function is not consistent.  The model
    is the stable insertion sort: an element moves right past exactly those
    elements the comparator puts strictly before it ([cmp x y > 0]).  Lemma
    [stable_sort_unique] below shows that any stable rearrangement that is
    in order is the one this sort returns.  What is proved about the order
    of a sorted array is therefore stated for arrays on which the
    comparator is consistent ([consistent_comparator] below); on other
    arrays the order is the engine's choice and this model is only one of
    the orders allowed. *)
Section ArraySort.
Context {A : Type}.
Variable cmp : A -> A -> Z.

Fixpoint sort_insert (x : A) (l : list A) : list A :=
  match l with
  | [] => [x]
  | y :: l' => if cmp x y >? 0 then y :: sort_insert x l' else x :: l
  end.

Definition Array_sort (l : list A) : list A :=
  fold_right sort_insert [] l.

End ArraySort.

(** ** Tasks as the backend delivers them *)

Record Project : Type := { project_name : jsval }.

Record User : Type := { full_name : jsval; username : jsval }.

(** [project] and [assignee] are [None] when the JSON has [null] or no such
    member; the optional chaining [a.project?.name] then gives [undefined]. *)
Record Task : Type := {
  task_id : Z;
  title : jsval;
  project : option Project;
  assignee : option User;
  priority : jsval;
  status : jsval;
  due_date : jsval
}.

Inductive direction : Type := asc | desc.

(** *** The rank tables [priorityOrder] and [statusOrder]

    Both are object literals, so [table[key]] finds the own members first
    and then whatever [Object.prototype] has under [key]. *)
Inductive tableval : Type :=
| TNum (n : N)             (* an own member: a rank *)
| TInherited (k : string)  (* the member [k] of [Object.prototype] *)
| TUndefined               (* no such member *)
| TEmptyString.            (* [''], what the comparator puts for undefined *)

Definition Object_prototype_keys : list string :=
  ["constructor"; "__defineGetter__"; "__defineSetter__"; "hasOwnProperty";
   "__lookupGetter__"; "__lookupSetter__"; "isPrototypeOf";
   "propertyIsEnumerable"; "toString"; "valueOf"; "__proto__";
   "toLocaleString"].

Definition inherited (k : string) : bool :=
  existsb (String.eqb k) Object_prototype_keys.

Fixpoint own_member (table : list (string * N)) (k : string) : option N :=
  match table with
  | [] => None
  | (k', n) :: rest => if (k =? k')%string then Some n else own_member rest k
  end.

Definition table_get (table : list (string * N)) (k : string) : tableval :=
  match own_member table k with
  | Some n => TNum n
  | None => if inherited k then TInherited k else TUndefined
  end.

Definition priorityOrder : list (string * N) :=
  [("urgent", 0%N); ("high", 1%N); ("medium", 2%N); ("low", 3%N)].

Definition statusOrder : list (string * N) :=
  [("todo", 0%N); ("in_progress", 1%N); ("review", 2%N); ("done", 3%N)].

(** [if (value === null || value === undefined) value = '';] *)
Definition null_guard (v : tableval) : tableval :=
  match v with
  | TUndefined => TEmptyString
  | _ => v
  end.

(** What [ToPrimitive] makes of an inherited member: [__proto__] is
    [Object.prototype] itself, the others are built-in functions, whose
    text names the function ([constructor] is [Object]). *)
Definition nativeText (k : string) : string :=
  if (k =? "__proto__")%string then "[object Object]"
  else if (k =? "constructor")%string then "function Object() { [native code] }"
  else "function " ++ k ++ "() { [native code] }".

(** The operands of [<] after [ToPrimitive]: a string or not. *)
Definition as_string (v : tableval) : option string :=
  match v with
  | TEmptyString => Some ""
  | TInherited k => Some (nativeText k)
  | _ => None
  end.

(** [ToNumber]: [''] is 0; [undefined] and the text of a built-in are NaN. *)
Definition as_number (v : tableval) : option N :=
  match v with
  | TNum n => Some n
  | TEmptyString => Some 0%N
  | _ => None
  end.

(** [x < y] on two values of a rank table. *)
Definition rank_lt (x y : tableval) : bool :=
  match as_string x, as_string y with
  | Some a, Some b => string_lt a b
  | _, _ =>
      match as_number x, as_number y with
      | Some a, Some b => (a <? b)%N
      | _, _ => false
      end
  end.

(** [x < y] on two numbers, here the time values of two [Date] objects. *)
Definition num_lt (x y : jsnum) : bool :=
  match x, y with
  | Int a, Int b => a <? b
  | _, _ => false
  end.

(** The last line of the comparator:
    [if (A < B) return dir === 'asc' ? -1 : 1;
     if (A > B) return dir === 'asc' ? 1 : -1; return 0;] *)
Definition compare_result (dir : direction) (lt gt : bool) : Z :=
  if lt then match dir with asc => -1 | desc => 1 end
  else if gt then match dir with asc => 1 | desc => -1 end
  else 0.

Definition compare_with {V : Type} (lt : V -> V -> bool) (dir : direction)
  (valueA valueB : V) : Z :=
  compare_result dir (lt valueA valueB) (lt valueB valueA).

(** [a.project?.name] *)
Definition project_name_of (a : Task) : jsval :=
  match project a with
  | Some p => project_name p
  | None => JUndefined
  end.

(** [a.assignee?.full_name || a.assignee?.username] *)
Definition assignee_name_of (a : Task) : jsval :=
  match assignee a with
  | Some u => js_or (full_name u) (username u)
  | None => JUndefined
  end.

Definition priority_value (a : Task) : tableval :=
  null_guard (table_get priorityOrder (ToString (priority a))).

Definition status_value (a : Task) : tableval :=
  null_guard (table_get statusOrder (ToString (status a))).

(** ** Dates

    A [Date] object is its time value: milliseconds since the epoch, or NaN
    for an invalid date. *)

Definition msPerDay : Z := 86400000.

Definition TimeClip (t : jsnum) : jsnum :=
  match t with
  | Int z => if Z.abs z <=? 8640000000000000 then Int z else NaN
  | NaN => NaN
  end.

Definition num_add (x : jsnum) (k : Z) : jsnum :=
  match x with
  | Int z => Int (z + k)
  | NaN => NaN
  end.

(** Year, month (1-12) and day of month of a day number (days since the
    epoch), proleptic Gregorian calendar. *)
Definition civil_from_days (days : Z) : Z * Z * Z :=
  let z := days + 719468 in
  let era := z / 146097 in
  let doe := z - era * 146097 in
  let yoe := (doe - doe / 1460 + doe / 36524 - doe / 146096) / 365 in
  let doy := doe - (365 * yoe + yoe / 4 - yoe / 100) in
  let mp := (5 * doy + 2) / 153 in
  let d := doy - (153 * mp + 2) / 5 + 1 in
  let m := if mp <? 10 then mp + 3 else mp - 9 in
  let y := yoe + era * 400 in
  (if m <=? 2 then y + 1 else y, m, d).

Definition days_from_civil (y m d : Z) : Z :=
  let y' := if m <=? 2 then y - 1 else y in
  let era := y' / 400 in
  let yoe := y' - era * 400 in
  let doy := (153 * (if 2 <? m then m - 3 else m + 9) + 2) / 5 + d - 1 in
  let doe := yoe * 365 + yoe / 4 - yoe / 100 + doy in
  era * 146097 + doe - 719468.

Definition getUTCFullYear (t : jsnum) : jsnum :=
  match t with
  | Int z => let '(y, _, _) := civil_from_days (z / msPerDay) in Int y
  | NaN => NaN
  end.

(** [getUTCMonth] counts from 0. *)
Definition getUTCMonth (t : jsnum) : jsnum :=
  match t with
  | Int z => let '(_, m, _) := civil_from_days (z / msPerDay) in Int (m - 1)
  | NaN => NaN
  end.

Definition getUTCDate (t : jsnum) : jsnum :=
  match t with
  | Int z => let '(_, _, d) := civil_from_days (z / msPerDay) in Int d
  | NaN => NaN
  end.

(** [String(n)] for NaN and for integers. *)
Definition Number_toString (n : jsnum) : string :=
  match n with
  | NaN => "NaN"
  | Int z => NilZero.string_of_int (Z.to_int z)
  end.

Fixpoint repeat_string (n : nat) (pad : string) : string :=
  match n with
  | O => ""
  | S n' => pad ++ repeat_string n' pad
  end.

(** [s.padStart(len, pad)] for a one-character [pad]. *)
Definition padStart (len : nat) (pad : string) (s : string) : string :=
  repeat_string (len - String.length s) pad ++ s.

(** A sample host [Date.parse]: it reads the date-only form [YYYY-MM-DD] as
    UTC midnight and rejects everything else.  The controller's functions
    take the host's parser as a parameter; this one instantiates them in
    examples. *)
Definition digit_of (c : ascii) : option Z :=
  let n := N_of_ascii c in
  if ((48 <=? n) && (n <=? 57))%N then Some (Z.of_N n - 48) else None.

Fixpoint digits_value (acc : Z) (l : list ascii) : option Z :=
  match l with
  | [] => Some acc
  | c :: l' =>
      match digit_of c with
      | Some d => digits_value (acc * 10 + d) l'
      | None => None
      end
  end.

Definition sample_Date_parse (s : string) : jsnum :=
  match list_ascii_of_string s with
  | [y1; y2; y3; y4; "-"%char; m1; m2; "-"%char; d1; d2] =>
      match digits_value 0 [y1; y2; y3; y4], digits_value 0 [m1; m2],
            digits_value 0 [d1; d2] with
      | Some y, Some m, Some d =>
          if (1 <=? m) && (m <=? 12) && (1 <=? d) && (d <=? 31)
          then Int (days_from_civil y m d * msPerDay)
          else NaN
      | _, _, _ => NaN
      end
  | _ => NaN
  end.

(** ** Exceptions

    A statement either completes or throws; [try_catch] is
    [try { body } catch (e) { handler }]. *)
Inductive completion (A : Type) : Type :=
| Normal (a : A)
| Throw (error : string).

Arguments Normal {A} a.
Arguments Throw {A} error.

Definition bind {A B : Type} (c : completion A) (k : A -> completion B)
  : completion B :=
  match c with
  | Normal a => k a
  | Throw e => Throw e
  end.

Notation "'let*' x ':=' c 'in' k" := (bind c (fun x => k))
  (at level 10, x name, c at level 100, k at level 200).

Definition try_catch {A : Type} (body : completion A) (handler : string -> A) : A :=
  match body with
  | Normal a => a
  | Throw e => handler e
  end.

(** [date.toISOString()] throws a [RangeError] on an invalid date.  The
    model keeps the instant instead of its ISO-8601 text. *)
Definition toISOString (t : jsnum) : completion Z :=
  match t with
  | Int z => Normal z
  | NaN => Throw "RangeError: Invalid time value"
  end.

(** ** Form data, [parseInt] and requests *)

(** [new FormData(form)]: the entries of the form in order. *)
Definition FormData : Type := list (string * string).

(** [formData.get(name)]: the first value under [name], or [null]. *)
Fixpoint FormData_get (name : string) (fd : FormData) : jsval :=
  match fd with
  | [] => JNull
  | (k, v) :: rest => if (k =? name)%string then JString v else FormData_get name rest
  end.

Definition is_white (c : ascii) : bool :=
  let n := N_of_ascii c in
  ((n =? 9) || (n =? 10) || (n =? 11) || (n =? 12) || (n =? 13) || (n =? 32)
   || (n =? 160))%N.

Fixpoint skip_white (s : string) : string :=
  match s with
  | String c s' => if is_white c then skip_white s' else s
  | EmptyString => s
  end.

Definition digit_in_radix (radix : Z) (c : ascii) : option Z :=
  let n := Z.of_N (N_of_ascii c) in
  let v := if (48 <=? n) && (n <=? 57) then n - 48
           else if (97 <=? n) && (n <=? 122) then n - 87
           else if (65 <=? n) && (n <=? 90) then n - 55
           else 36 in
  if v <? radix then Some v else None.

(** The longest prefix of digits, as a number; [None] when it is empty. *)
Fixpoint parse_digits (radix : Z) (acc : option Z) (s : string) : option Z :=
  match s with
  | String c s' =>
      match digit_in_radix radix c with
      | Some d => parse_digits radix (Some (match acc with Some a => a * radix + d | None => d end)) s'
      | None => acc
      end
  | EmptyString => acc
  end.

(** [parseInt(s)] without a radix argument: white space, a sign, [0x] for
    base 16, then digits. *)
Definition parseInt_string (s : string) : jsnum :=
  let s1 := skip_white s in
  let '(sign, s2) :=
    match s1 with
    | String "-"%char r => (-1, r)
    | String "+"%char r => (1, r)
    | _ => (1, s1)
    end in
  let '(radix, s3) :=
    match s2 with
    | String "0"%char (String "x"%char r) => (16, r)
    | String "0"%char (String "X"%char r) => (16, r)
    | _ => (10, s2)
    end in
  match parse_digits radix None s3 with
  | Some n => Int (sign * n)
  | None => NaN
  end.

(** [parseInt(v)] applies [ToString] to its argument first. *)
Definition parseInt (v : jsval) : jsnum := parseInt_string (ToString v).

(** The JSON body of a task request, before [JSON.stringify]. *)
Record TaskData : Type := {
  td_title : jsval;
  td_description : jsval;
  td_type : jsval;
  td_status : jsval;
  td_priority : jsval;
  td_severity : jsval;
  td_project_id : option jsnum;
  td_assignee_id : option jsnum;
  td_start_date : option Z;
  td_due_date : option Z
}.

(** A call of [fetch]. *)
Record Request : Type := {
  req_method : string;
  req_url : string;
  req_body : option TaskData
}.

Definition GET (url : string) : Request :=
  {| req_method := "GET"; req_url := url; req_body := None |}.

(** ** The query string of [loadTasks] *)

Definition hex_digit (n : N) : ascii :=
  if (n <? 10)%N then ascii_of_N (48 + n) else ascii_of_N (55 + n).

Definition percent_byte (n : N) : string :=
  String "%"%char (String (hex_digit (n / 16)) (String (hex_digit (n mod 16)) "")).

(** The [application/x-www-form-urlencoded] byte serializer. *)
Definition urlencode_byte (n : N) : string :=
  if ((48 <=? n) && (n <=? 57) || (65 <=? n) && (n <=? 90)
      || (97 <=? n) && (n <=? 122)
      || (n =? 42) || (n =? 45) || (n =? 46) || (n =? 95))%N
  then String (ascii_of_N n) ""
  else if (n =? 32)%N then "+"
  else percent_byte n.

(** A code unit below 128 is one UTF-8 byte, one from 128 to 255 is two. *)
Definition urlencode_unit (c : ascii) : string :=
  let n := N_of_ascii c in
  if (n <? 128)%N then urlencode_byte n
  else urlencode_byte (192 + n / 64) ++ urlencode_byte (128 + n mod 64).

Fixpoint urlencode (s : string) : string :=
  match s with
  | EmptyString => EmptyString
  | String c s' => urlencode_unit c ++ urlencode s'
  end.

(** [new URLSearchParams()] with [append] and [toString]. *)
Definition URLSearchParams : Type := list (string * string).

Definition params_append (p : URLSearchParams) (name value : string) : URLSearchParams :=
  (p ++ [(name, value)])%list.

Fixpoint URLSearchParams_toString (p : URLSearchParams) : string :=
  match p with
  | [] => ""
  | [(k, v)] => urlencode k ++ "=" ++ urlencode v
  | (k, v) :: rest => urlencode k ++ "=" ++ urlencode v ++ "&" ++ URLSearchParams_toString rest
  end.

(** The values of the five filter controls, read as
    [document.getElementById(id)?.value]: [undefined] when the page has no
    such control. *)
Record Filters : Type := {
  statusFilter : jsval;
  assigneeFilter : jsval;
  projectFilter : jsval;
  priorityFilter : jsval;
  textSearch : jsval
}.

(** [if (v && v !== 'all') params.append(name, v);] *)
Definition append_unless_all (name : string) (v : jsval) (p : URLSearchParams)
  : URLSearchParams :=
  match v with
  | JString s => if truthy v && negb (s =? "all")%string then params_append p name s else p
  | _ => p
  end.

(** [if (text) params.append('search_text', text);] *)
Definition append_if_set (name : string) (v : jsval) (p : URLSearchParams)
  : URLSearchParams :=
  match v with
  | JString s => if truthy v then params_append p name s else p
  | _ => p
  end.

Definition loadTasks_params (f : Filters) : URLSearchParams :=
  let params := [] in
  let params := append_unless_all "status" (statusFilter f) params in
  let params := append_unless_all "assignee" (assigneeFilter f) params in
  let params := append_unless_all "project" (projectFilter f) params in
  let params := append_unless_all "priority" (priorityFilter f) params in
  let params := append_if_set "search_text" (textSearch f) params in
  params.

Definition loadTasks_query (f : Filters) : string :=
  URLSearchParams_toString (loadTasks_params f).

Definition loadTasks_url (f : Filters) : string :=
  "/api/tasks?" ++ loadTasks_query f.

(** ** The controller state

    The closure variables of [initTaskManagement], the part of the page the
    claims are about, and a log of what left the script. *)

(** The table body shows either the "No tasks found" placeholder row or one
    row per task, each carrying the task id in [data-task-id]. *)
Inductive TableBody : Type :=
| EmptyState
| Rows (ids : list Z).

Record State : Type := {
  tasks : list Task;
  currentSortField : string;
  currentSortDirection : direction;
  selectedTaskId : option Z;          (* [null] or a task id *)
  detailVisible : bool;
  filters : Filters;                  (* the filter controls *)
  tasksTableBody : option TableBody;  (* [None]: the page has no such element *)
  tasksCount : option nat;            (* the counter next to the table *)
  taskDetailContainer : bool;         (* [style.display] is ['block'] *)
  alerts : list string;               (* every [alert(message)], oldest first *)
  requests : list Request             (* every [fetch], oldest first *)
}.

Definition set_tasks (l : list Task) (s : State) : State :=
  {| tasks := l; currentSortField := currentSortField s;
     currentSortDirection := currentSortDirection s;
     selectedTaskId := selectedTaskId s; detailVisible := detailVisible s;
     filters := filters s; tasksTableBody := tasksTableBody s;
     tasksCount := tasksCount s; taskDetailContainer := taskDetailContainer s;
     alerts := alerts s; requests := requests s |}.

Definition set_sort (field : string) (dir : direction) (s : State) : State :=
  {| tasks := tasks s; currentSortField := field;
     currentSortDirection := dir;
     selectedTaskId := selectedTaskId s; detailVisible := detailVisible s;
     filters := filters s; tasksTableBody := tasksTableBody s;
     tasksCount := tasksCount s; taskDetailContainer := taskDetailContainer s;
     alerts := alerts s; requests := requests s |}.

Definition set_selection (sel : option Z) (visible display : bool) (s : State) : State :=
  {| tasks := tasks s; currentSortField := currentSortField s;
     currentSortDirection := currentSortDirection s;
     selectedTaskId := sel; detailVisible := visible;
     filters := filters s; tasksTableBody := tasksTableBody s;
     tasksCount := tasksCount s; taskDetailContainer := display;
     alerts := alerts s; requests := requests s |}.

Definition set_filters (f : Filters) (s : State) : State :=
  {| tasks := tasks s; currentSortField := currentSortField s;
     currentSortDirection := currentSortDirection s;
     selectedTaskId := selectedTaskId s; detailVisible := detailVisible s;
     filters := f; tasksTableBody := tasksTableBody s;
     tasksCount := tasksCount s; taskDetailContainer := taskDetailContainer s;
     alerts := alerts s; requests := requests s |}.

Definition set_table (body : TableBody) (count : nat) (s : State) : State :=
  {| tasks := tasks s; currentSortField := currentSortField s;
     currentSortDirection := currentSortDirection s;
     selectedTaskId := selectedTaskId s; detailVisible := detailVisible s;
     filters := filters s; tasksTableBody := Some body;
     tasksCount := Some count; taskDetailContainer := taskDetailContainer s;
     alerts := alerts s; requests := requests s |}.

Definition set_table_body (body : TableBody) (s : State) : State :=
  {| tasks := tasks s; currentSortField := currentSortField s;
     currentSortDirection := currentSortDirection s;
     selectedTaskId := selectedTaskId s; detailVisible := detailVisible s;
     filters := filters s; tasksTableBody := Some body;
     tasksCount := tasksCount s; taskDetailContainer := taskDetailContainer s;
     alerts := alerts s; requests := requests s |}.

(** [alert(message)] *)
Definition alert (message : string) (s : State) : State :=
  {| tasks := tasks s; currentSortField := currentSortField s;
     currentSortDirection := currentSortDirection s;
     selectedTaskId := selectedTaskId s; detailVisible := detailVisible s;
     filters := filters s; tasksTableBody := tasksTableBody s;
     tasksCount := tasksCount s; taskDetailContainer := taskDetailContainer s;
     alerts := (alerts s ++ [message])%list; requests := requests s |}.

(** [fetch(url, options)]: the call itself; the response comes back later
    as an event of its own. *)
Definition fetch (r : Request) (s : State) : State :=
  {| tasks := tasks s; currentSortField := currentSortField s;
     currentSortDirection := currentSortDirection s;
     selectedTaskId := selectedTaskId s; detailVisible := detailVisible s;
     filters := filters s; tasksTableBody := tasksTableBody s;
     tasksCount := tasksCount s; taskDetailContainer := taskDetailContainer s;
     alerts := alerts s; requests := (requests s ++ [r])%list |}.

(** [showErrorNotification] and [showNotification] both end in [alert]. *)
Definition showErrorNotification (message : string) (s : State) : State :=
  alert message s.

Definition showNotification (message : string) (s : State) : State :=
  alert message s.

(** What the script lets a click, a response or the user's answer be. *)
Inductive ClickTarget : Type :=
| NoRow                   (* [e.target.closest('tr')] is [null] *)
| PlaceholderRow          (* a row without [data-task-id] *)
| TaskRow (taskId : Z).   (* a task row; [parseInt] of its [data-task-id] *)

(** A response body of [GET /api/tasks]: the array itself, or an object
    with the array under [tasks] ([data.tasks || data]). *)
Inductive TasksPayload : Type :=
| TasksArray (l : list Task)
| TasksObject (l : list Task).

Definition payload_tasks (data : TasksPayload) : list Task :=
  match data with
  | TasksArray l => l
  | TasksObject l => l
  end.

(** How the [fetch] of [loadTasks] ends: the transport fails, or a response
    arrives with its [ok] flag, status and body ([None]: not JSON). *)
Inductive LoadTasksResult : Type :=
| LoadTransportError
| LoadResponse (ok : bool) (status : Z) (body : option TasksPayload).

(** How the [fetch] of [deleteTask] ends. *)
Inductive DeleteResult : Type :=
| DeleteOk
| DeleteHttpError (error : jsval)      (* [data.error] of the JSON body *)
| DeleteFailed (message : string).     (* no usable response: [error.message] *)

Section Controller.

(** The host's [Date.parse], which also decides what [new Date(string)]
    is; outside the ISO formats it differs between engines. *)
Variable Date_parse : string -> jsnum.

(** [new Date(v)] *)
Definition new_Date (v : jsval) : jsnum :=
  match v with
  | JString s => Date_parse s
  | JNull => Int 0
  | JUndefined => NaN
  end.

(** [formatDate], lines 21-33. *)
Definition formatDate (dateString : jsval) : string :=
  if negb (truthy dateString) then "Not set"
  else
    try_catch
      (let* date := Normal (new_Date dateString) in
       let* beijingDate := Normal (TimeClip (num_add date (8 * 60 * 60 * 1000))) in
       let* year := Normal (getUTCFullYear beijingDate) in
       let* month := Normal (padStart 2 "0" (Number_toString (num_add (getUTCMonth beijingDate) 1))) in
       let* day := Normal (padStart 2 "0" (Number_toString (getUTCDate beijingDate))) in
       Normal (Number_toString year ++ "-" ++ month ++ "-" ++ day))
      (fun _ => "Invalid date").

(** [a.due_date ? new Date(a.due_date) : new Date(0)] *)
Definition due_date_value (a : Task) : jsnum :=
  if truthy (due_date a) then new_Date (due_date a) else Int 0.

(** The comparison function of [sortTasks], lines 677-690. *)
Definition compareTasks (field : string) (dir : direction) (a b : Task) : Z :=
  if (field =? "title")%string then
    compare_with string_lt dir (toLowerCase (or_empty (title a)))
                               (toLowerCase (or_empty (title b)))
  else if (field =? "project")%string then
    compare_with string_lt dir (toLowerCase (or_empty (project_name_of a)))
                               (toLowerCase (or_empty (project_name_of b)))
  else if (field =? "assignee")%string then
    compare_with string_lt dir (toLowerCase (or_empty (assignee_name_of a)))
                               (toLowerCase (or_empty (assignee_name_of b)))
  else if (field =? "priority")%string then
    compare_with rank_lt dir (priority_value a) (priority_value b)
  else if (field =? "status")%string then
    compare_with rank_lt dir (status_value a) (status_value b)
  else if (field =? "due_date")%string then
    compare_with num_lt dir (due_date_value a) (due_date_value b)
  else
    compare_with string_lt dir (toLowerCase (or_empty (title a)))
                               (toLowerCase (or_empty (title b))).

(** [sortTasks], lines 676-691: sorts [tasks] in place. *)
Definition sortTasks (s : State) : State :=
  set_tasks (Array_sort (compareTasks (currentSortField s) (currentSortDirection s))
                        (tasks s)) s.

(** [renderTasksTable], lines 221-239 (a row is kept as its task id). *)
Definition renderTasksTable (l : list Task) (s : State) : State :=
  match tasksTableBody s, tasksCount s with
  | Some _, Some _ =>
      match l with
      | [] => set_table EmptyState 0 s
      | _ => set_table (Rows (map task_id l)) (List.length l) s
      end
  | _, _ => s
  end.

(** [loadTasks], lines 178-192: the query and the call of [fetch]. *)
Definition loadTasks (s : State) : State :=
  fetch (GET (loadTasks_url (filters s))) s.

(** The promise chain of [loadTasks], lines 193-195, run on the outcome of
    its [fetch]. *)
Definition loadTasks_response (r : LoadTasksResult) : completion TasksPayload :=
  match r with
  | LoadTransportError => Throw "TypeError: Failed to fetch"
  | LoadResponse ok status body =>
      if negb ok then Throw ("Failed to load tasks: " ++ Number_toString (Int status))
      else match body with
           | Some data => Normal data
           | None => Throw "SyntaxError"
           end
  end.

Definition loadTasks_settled (r : LoadTasksResult) (s : State) : State :=
  match loadTasks_response r with
  | Normal data =>
      let s1 := set_tasks (payload_tasks data) s in
      let s2 := sortTasks s1 in
      renderTasksTable (tasks s2) s2
  | Throw _ =>
      let s1 := showErrorNotification "Failed to load tasks. Please try again later." s in
      renderTasksTable [] s1
  end.

(** [tasks[index] = task] where [index] is the first position whose id is
    [taskId], if there is one. *)
Fixpoint replace_task (taskId : Z) (task : Task) (l : list Task) : list Task :=
  match l with
  | [] => []
  | t :: rest => if task_id t =? taskId then task :: rest
                 else t :: replace_task taskId task rest
  end.

(** [loadTaskDetails], lines 309-330: the request, and what its promise
    chain does with the outcome ([None]: any failure). *)
Definition loadTaskDetails (taskId : Z) (s : State) : State :=
  fetch (GET ("/api/tasks/" ++ Number_toString (Int taskId))) s.

Definition loadTaskDetails_settled (taskId : Z) (r : option Task) (s : State) : State :=
  match r with
  | Some task =>
      let s1 := set_tasks (replace_task taskId task (tasks s)) s in
      set_selection (selectedTaskId s1) (detailVisible s1) true s1
  | None => showNotification "Failed to load task details" s
  end.

Definition loadComments (taskId : Z) (s : State) : State :=
  fetch (GET ("/api/tasks/" ++ Number_toString (Int taskId) ++ "/comments")) s.

(** [closeTaskDetail], lines 407-414. *)
Definition closeTaskDetail (s : State) : State :=
  set_selection None false false s.

(** [handleTaskRowClick], lines 416-428. *)
Definition handleTaskRowClick (e : ClickTarget) (s : State) : State :=
  match e with
  | NoRow | PlaceholderRow => s
  | TaskRow taskId =>
      match selectedTaskId s with
      | Some sel =>
          if sel =? taskId then
            let visible := negb (detailVisible s) in
            set_selection (selectedTaskId s) visible visible s
          else
            loadComments taskId (loadTaskDetails taskId (set_selection (Some taskId) true true s))
      | None =>
          loadComments taskId (loadTaskDetails taskId (set_selection (Some taskId) true true s))
      end
  end.

(** The click handler that [setupSorting] installs on every sortable
    column header, lines 667-672 ([updateSortingUI] only moves icons). *)
Definition setupSorting_click (sortField : string) (s : State) : State :=
  let s1 :=
    if (sortField =? currentSortField s)%string then
      set_sort (currentSortField s)
               (match currentSortDirection s with asc => desc | desc => asc end) s
    else set_sort sortField asc s in
  let s2 := sortTasks s1 in
  renderTasksTable (tasks s2) s2.

(** *** Deleting a task ([task_manage copy.js], lines 2052-2088) *)

(** [row.remove()] for the first row whose [data-task-id] is [taskId]. *)
Fixpoint remove_row (taskId : Z) (ids : list Z) : list Z :=
  match ids with
  | [] => []
  | i :: rest => if i =? taskId then rest else i :: remove_row taskId rest
  end.

Definition remove_task_row (taskId : Z) (s : State) : State :=
  match tasksTableBody s with
  | Some (Rows ids) => set_table_body (Rows (remove_row taskId ids)) s
  | _ => s
  end.

(** [deleteTask]: nothing happens unless the user confirms; [confirmed] is
    the answer to [confirm(...)]. *)
Definition deleteTask (taskId : Z) (confirmed : bool) (s : State) : State :=
  if negb confirmed then s
  else fetch {| req_method := "DELETE";
                req_url := "/api/tasks/" ++ Number_toString (Int taskId);
                req_body := None |} s.

(** The promise chain of [deleteTask] on the outcome of its [fetch];
    [selectedTaskId == taskId] compares the number with the number the
    [data-task-id] text denotes, and [null] equals neither. *)
Definition deleteTask_settled (taskId : Z) (r : DeleteResult) (s : State) : State :=
  match r with
  | DeleteOk =>
      let s1 := remove_task_row taskId s in
      let s2 :=
        match selectedTaskId s1 with
        | Some sel =>
            if sel =? taskId
            then closeTaskDetail (set_selection None false (taskDetailContainer s1) s1)
            else s1
        | None => s1
        end in
      showNotification "Task deleted successfully" s2
  | DeleteHttpError error =>
      let message := if truthy error then or_empty error else "Failed to delete task" in
      showNotification
        (if (message =? "")%string then "Failed to delete task. Please try again later."
         else message) s
  | DeleteFailed message =>
      showNotification
        (if (message =? "")%string then "Failed to delete task. Please try again later."
         else message) s
  end.

(** *** Submitting the task form *)

(** [handleTaskSubmission], [task_manage.js] lines 575-609: everything up to
    and including the call of [fetch]. *)
Definition handleTaskSubmission (formData : FormData) (s : State) : completion State :=
  let taskId := FormData_get "id" formData in
  let project_id :=
    parseInt (js_or (FormData_get "project_id" formData) (FormData_get "project" formData)) in
  let assigneeId :=
    js_or (FormData_get "assignee_id" formData) (FormData_get "assignee" formData) in
  let assignee_id := if truthy assigneeId then Some (parseInt assigneeId) else None in
  let startDate := FormData_get "start_date" formData in
  let* start_date :=
    (if truthy startDate
     then let* t := toISOString (new_Date startDate) in Normal (Some t)
     else Normal None) in
  let dueDate := FormData_get "due_date" formData in
  let* due_date :=
    (if truthy dueDate
     then let* t := toISOString (new_Date dueDate) in Normal (Some t)
     else Normal None) in
  let taskData :=
    {| td_title := FormData_get "title" formData;
       td_description := FormData_get "description" formData;
       td_type := FormData_get "type" formData;
       td_status := FormData_get "status" formData;
       td_priority := FormData_get "priority" formData;
       td_severity := FormData_get "severity" formData;
       td_project_id := Some project_id;
       td_assignee_id := assignee_id;
       td_start_date := start_date;
       td_due_date := due_date |} in
  let url := if truthy taskId then "/api/tasks/" ++ or_empty taskId else "/api/tasks" in
  let method := if truthy taskId then "PUT" else "POST" in
  Normal (fetch {| req_method := method; req_url := url; req_body := Some taskData |} s).

(** [v && v !== '' && v !== 'null' && v !== 'undefined'] *)
Definition is_selected (v : jsval) : bool :=
  truthy v
  && negb (or_empty v =? "")%string
  && negb (or_empty v =? "null")%string
  && negb (or_empty v =? "undefined")%string.

(** [handleTaskSubmission] of [task_manage copy.js], lines 2277-2337: the
    same, but a form without a project stops at a notification. *)
Definition handleTaskSubmission_copy (formData : FormData) (s : State) : completion State :=
  let taskId := FormData_get "id" formData in
  let projectValue := FormData_get "project_id" formData in
  if negb (is_selected projectValue) then
    Normal (showNotification "Please select a project" s)
  else
    let project_id := parseInt projectValue in
    let assigneeValue := FormData_get "assignee_id" formData in
    let assignee_id := if is_selected assigneeValue then Some (parseInt assigneeValue) else None in
    let startDate := FormData_get "start_date" formData in
    let* start_date :=
      (if truthy startDate
       then let* t := toISOString (new_Date startDate) in Normal (Some t)
       else Normal None) in
    let dueDate := FormData_get "due_date" formData in
    let* due_date :=
      (if truthy dueDate
       then let* t := toISOString (new_Date dueDate) in Normal (Some t)
       else Normal None) in
    let taskData :=
      {| td_title := FormData_get "title" formData;
         td_description := FormData_get "description" formData;
         td_type := FormData_get "type" formData;
         td_status := FormData_get "status" formData;
         td_priority := FormData_get "priority" formData;
         td_severity := FormData_get "severity" formData;
         td_project_id := Some project_id;
         td_assignee_id := assignee_id;
         td_start_date := start_date;
         td_due_date := due_date |} in
    let url := if truthy taskId then "/api/tasks/" ++ or_empty taskId else "/api/tasks" in
    let method := if truthy taskId then "PUT" else "POST" in
    Normal (fetch {| req_method := method; req_url := url; req_body := Some taskData |} s).

(** *** The controller as a transition system *)

(** The variables as [initTaskManagement] declares them, on a page that may
    or may not have the table body and the counter, followed by the first
    [loadTasks] ([loadUsers] and [loadProjects] only fill the dropdowns). *)
Definition initial_state (f : Filters) (has_table has_count : bool) : State :=
  {| tasks := []; currentSortField := "title"; currentSortDirection := asc;
     selectedTaskId := None; detailVisible := false; filters := f;
     tasksTableBody := if has_table then Some (Rows []) else None;
     tasksCount := if has_count then Some O else None;
     taskDetailContainer := false; alerts := []; requests := [] |}.

Definition initTaskManagement (f : Filters) (has_table has_count : bool) : State :=
  loadTasks (initial_state f has_table has_count).

Inductive Event : Type :=
| RowClick (e : ClickTarget)
| HeaderClick (sortField : string)
| CloseDetailClick
| FilterChange (f : Filters)
| TasksSettled (r : LoadTasksResult)
| TaskDetailsSettled (taskId : Z) (r : option Task)
| DeleteClick (taskId : Z) (confirmed : bool)
| DeleteSettled (taskId : Z) (r : DeleteResult).

Definition step (ev : Event) (s : State) : State :=
  match ev with
  | RowClick e => handleTaskRowClick e s
  | HeaderClick sortField => setupSorting_click sortField s
  | CloseDetailClick => closeTaskDetail s
  | FilterChange f => loadTasks (set_filters f s)
  | TasksSettled r => loadTasks_settled r s
  | TaskDetailsSettled taskId r => loadTaskDetails_settled taskId r s
  | DeleteClick taskId confirmed => deleteTask taskId confirmed s
  | DeleteSettled taskId r => deleteTask_settled taskId r s
  end.

(** The ids of the task rows on display. *)
Definition displayed_rows (s : State) : list Z :=
  match tasksTableBody s with
  | Some (Rows ids) => ids
  | _ => []
  end.

(** A click lands on something the table shows. *)
Definition possible (s : State) (ev : Event) : Prop :=
  match ev with
  | RowClick (TaskRow taskId) => In taskId (displayed_rows s)
  | RowClick PlaceholderRow => tasksTableBody s = Some EmptyState
  | DeleteClick taskId _ => In taskId (displayed_rows s)
  | _ => True
  end.

Inductive reachable : State -> Prop :=
| reachable_init f has_table has_count :
    reachable (initTaskManagement f has_table has_count)
| reachable_step s ev :
    reachable s -> possible s ev -> reachable (step ev s).

(** "The selected task id is null or references a task of the loaded
    collection." *)
Definition selection_in_collection (s : State) : Prop :=
  match selectedTaskId s with
  | None => True
  | Some sel => In sel (map task_id (tasks s))
  end.

(** An event keeps the selection when a task list that arrives still has
    the selected task, and a task detail that arrives is the task asked
    for. *)
Definition keeps_selection (s : State) (ev : Event) : Prop :=
  match ev with
  | TasksSettled r =>
      match loadTasks_response r with
      | Normal data => match selectedTaskId s with
                       | None => True
                       | Some sel => In sel (map task_id (payload_tasks data))
                       end
      | Throw _ => True
      end
  | TaskDetailsSettled taskId (Some task) => task_id task = taskId
  | _ => True
  end.

Inductive reachable_keeping : State -> Prop :=
| keeping_init f has_table has_count :
    reachable_keeping (initTaskManagement f has_table has_count)
| keeping_step s ev :
    reachable_keeping s -> possible s ev -> keeps_selection s ev ->
    reachable_keeping (step ev s).

(** ** Vocabulary of the properties *)

(** The operator [<] as the comparator applies it for a sort field, on the
    values it reads from two tasks. *)
Definition task_lt (field : string) (a b : Task) : bool :=
  if (field =? "title")%string then
    string_lt (toLowerCase (or_empty (title a))) (toLowerCase (or_empty (title b)))
  else if (field =? "project")%string then
    string_lt (toLowerCase (or_empty (project_name_of a)))
              (toLowerCase (or_empty (project_name_of b)))
  else if (field =? "assignee")%string then
    string_lt (toLowerCase (or_empty (assignee_name_of a)))
              (toLowerCase (or_empty (assignee_name_of b)))
  else if (field =? "priority")%string then rank_lt (priority_value a) (priority_value b)
  else if (field =? "status")%string then rank_lt (status_value a) (status_value b)
  else if (field =? "due_date")%string then num_lt (due_date_value a) (due_date_value b)
  else string_lt (toLowerCase (or_empty (title a))) (toLowerCase (or_empty (title b))).

(** The comparator does not tie [a] and [b]. *)
Definition told_apart (field : string) (a b : Task) : Prop :=
  task_lt field a b = true \/ task_lt field b a = true.

(** Every task row on display belongs to a task of the collection, and a
    page without the counter never gets a task row. *)
Definition rows_in_collection (s : State) : Prop :=
  incl (displayed_rows s) (map task_id (tasks s)) /\
  (tasksCount s = None -> displayed_rows s = []).

(** A non-OK response or a transport error. *)
Definition load_failed (r : LoadTasksResult) : Prop :=
  r = LoadTransportError \/ exists status body, r = LoadResponse false status body.

End Controller.

(** Two arrays that differ only by exchanges of neighbours which the
    comparator tells [apart]: a stable sort cannot distinguish them. *)
Inductive stable_equiv {A : Type} (apart : A -> A -> Prop) : list A -> list A -> Prop :=
| stable_nil : stable_equiv apart [] []
| stable_skip x l l' : stable_equiv apart l l' -> stable_equiv apart (x :: l) (x :: l')
| stable_swap x y l : apart x y -> stable_equiv apart (x :: y :: l) (y :: x :: l)
| stable_sym l l' : stable_equiv apart l l' -> stable_equiv apart l' l
| stable_trans l l' l'' :
    stable_equiv apart l l' -> stable_equiv apart l' l'' -> stable_equiv apart l l''.

(** The priorities and statuses of the data model. *)
Definition has_table_priority (t : Task) : Prop :=
  In (priority t) [JString "urgent"; JString "high"; JString "medium"; JString "low"].

Definition has_table_status (t : Task) : Prop :=
  In (status t) [JString "todo"; JString "in_progress"; JString "review"; JString "done"].

(** The rank a table gives a field value; 0 where it has no own member. *)
Definition rank_in (table : list (string * N)) (v : jsval) : Z :=
  match own_member table (ToString v) with
  | Some n => Z.of_N n
  | None => 0
  end.

Definition priority_rank (t : Task) : Z := rank_in priorityOrder (priority t).

Definition status_rank (t : Task) : Z := rank_in statusOrder (status t).

(** Ascending puts the smaller rank first, descending the larger. *)
Definition ordered_by (rank : Task -> Z) (dir : direction) (a b : Task) : Prop :=
  match dir with
  | asc => rank a <= rank b
  | desc => rank b <= rank a
  end.

(** A field value that is neither an own member of the table nor a member
    of [Object.prototype]. *)
Definition unknown_to (table : list (string * N)) (v : jsval) : Prop :=
  own_member table (ToString v) = None /\ inherited (ToString v) = false.

(** ** Sample data *)

Definition sample_task (i : Z) (p st : jsval) : Task :=
  {| task_id := i; title := JString "Task"; project := None; assignee := None;
     priority := p; status := st; due_date := JNull |}.

Definition no_filters : Filters :=
  {| statusFilter := JUndefined; assigneeFilter := JUndefined;
     projectFilter := JUndefined; priorityFilter := JUndefined;
     textSearch := JUndefined |}.

Definition sample_state : State := initTaskManagement no_filters true true.

(** Four tasks in the order low, high, urgent, medium (review, todo, done,
    in_progress), about to be sorted by priority or by status. *)
Definition four_tasks : list Task :=
  [sample_task 1 (JString "low") (JString "review");
   sample_task 2 (JString "high") (JString "todo");
   sample_task 3 (JString "urgent") (JString "done");
   sample_task 4 (JString "medium") (JString "in_progress")].

Definition priority_state : State :=
  set_sort "priority" asc (set_tasks four_tasks sample_state).

Definition status_state : State :=
  set_sort "status" desc (set_tasks four_tasks sample_state).

(** A form in create mode with a title and no project. *)
Definition form_without_project : FormData :=
  [("id", ""); ("title", "Write report"); ("description", ""); ("type", "task");
   ("status", "todo"); ("priority", "medium"); ("severity", "normal");
   ("project_id", ""); ("assignee_id", ""); ("start_date", "2024-03-01");
   ("due_date", "")].

Definition tasks_response (l : list Task) : LoadTasksResult :=
  LoadResponse true 200 (Some (TasksArray l)).

(** Task 5 is loaded and selected, then the list is loaded again under
    filters that task 5 does not pass. *)
Definition state_after_select : State :=
  step sample_Date_parse (RowClick (TaskRow 5))
    (step sample_Date_parse
       (TasksSettled (tasks_response [sample_task 5 (JString "low") (JString "todo")]))
       sample_state).

Definition state_after_reload : State :=
  step sample_Date_parse
    (TasksSettled (tasks_response [sample_task 6 (JString "high") (JString "done")]))
    (step sample_Date_parse (FilterChange
       {| statusFilter := JString "done"; assigneeFilter := JUndefined;
          projectFilter := JUndefined; priorityFilter := JUndefined;
          textSearch := JUndefined |})
       state_after_select).

(** * More of the controller

    The rest of what [task_manage.js] does around the functions above: the
    labels of a priority and a status, the cells of a table row, the reset
    of the filters and the debounce of the search box. *)

(** ** Labels (lines 91-109) *)

(** What [{...}[p] || fallback] can be on a table of strings: a string, or
    the member of [Object.prototype] that [p] names. *)
Inductive label : Type :=
| Text (s : string)
| Inherited (k : string).

Fixpoint own_text (table : list (string * string)) (k : string) : option string :=
  match table with
  | [] => None
  | (k', v) :: rest => if (k =? k')%string then Some v else own_text rest k
  end.

(** [table[k] || fallback] *)
Definition label_or (table : list (string * string)) (fallback : string) (k : string)
  : label :=
  match own_text table k with
  | Some v => if (v =? "")%string then Text fallback else Text v
  | None => if inherited k then Inherited k else Text fallback
  end.

Definition getPriorityClass (priority : jsval) : label :=
  let p := toLowerCase (or_empty priority) in
  label_or [("high", "priority-high"); ("medium", "priority-medium");
            ("low", "priority-low"); ("urgent", "priority-urgent")]
           "priority-unknown" p.

Definition getPriorityText (priority : jsval) : label :=
  let p := toLowerCase (or_empty priority) in
  label_or [("high", "High"); ("medium", "Medium"); ("low", "Low"); ("urgent", "Urgent")]
           "Unknown" p.

Definition getStatusClass (status : jsval) : label :=
  let s := toLowerCase (or_empty status) in
  label_or [("todo", "status-todo"); ("in_progress", "status-in_progress");
            ("review", "status-review"); ("done", "status-done")]
           "status-unknown" s.

Definition getStatusText (status : jsval) : label :=
  let s := toLowerCase (or_empty status) in
  label_or [("todo", "To Do"); ("in_progress", "In Progress");
            ("review", "In Review"); ("done", "Done")]
           "Unknown" s.

(** A label inside a template literal. *)
Definition label_text (l : label) : string :=
  match l with
  | Text s => s
  | Inherited k => nativeText k
  end.

(** ** The cells of a task row (lines 244-261) *)

Record RowCells : Type := {
  cell_title : string;
  cell_project : string;
  cell_assignee : string;
  cell_priority_class : string;
  cell_priority : string;
  cell_status_class : string;
  cell_status : string;
  cell_due_date : string
}.

(** [v || fallback] inside a template literal. *)
Definition or_text (v : jsval) (fallback : string) : string :=
  if truthy v then or_empty v else fallback.

Definition row_cells (Date_parse : string -> jsnum) (task : Task) : RowCells :=
  {| cell_title := or_text (title task) "Untitled Task";
     cell_project := or_text (project_name_of task) "No Project";
     cell_assignee := or_text (assignee_name_of task) "Unassigned";
     cell_priority_class := label_text (getPriorityClass (priority task));
     cell_priority := label_text (getPriorityText (priority task));
     cell_status_class := label_text (getStatusClass (status task));
     cell_status := label_text (getStatusText (status task));
     cell_due_date := if truthy (due_date task)
                      then formatDate Date_parse (due_date task)
                      else "Not set" |}.

(** ** The date of a form input (lines 35-51) *)

Definition getUTCHours (t : jsnum) : jsnum :=
  match t with
  | Int z => Int ((z mod msPerDay) / 3600000)
  | NaN => NaN
  end.

Definition getUTCMinutes (t : jsnum) : jsnum :=
  match t with
  | Int z => Int ((z mod 3600000) / 60000)
  | NaN => NaN
  end.

(** [date.getTime()] *)
Definition getTime (t : jsnum) : jsnum := t.

Definition formatDateTimeForInput (Date_parse : string -> jsnum) (dateString : jsval)
  : string :=
  if negb (truthy dateString) then ""
  else
    try_catch
      (let* date := Normal (new_Date Date_parse dateString) in
       let* beijingTime := Normal (num_add (getTime date) (8 * 60 * 60 * 1000)) in
       let* beijingDate := Normal (TimeClip beijingTime) in
       let* year := Normal (getUTCFullYear beijingDate) in
       let* month := Normal (padStart 2 "0" (Number_toString (num_add (getUTCMonth beijingDate) 1))) in
       let* day := Normal (padStart 2 "0" (Number_toString (getUTCDate beijingDate))) in
       let* hours := Normal (padStart 2 "0" (Number_toString (getUTCHours beijingDate))) in
       let* minutes := Normal (padStart 2 "0" (Number_toString (getUTCMinutes beijingDate))) in
       Normal (Number_toString year ++ "-" ++ month ++ "-" ++ day))
      (fun _ => "").

(** ** Resetting the filters (lines 382-404) *)

(** What [resetFilters] reads from the page: the hidden inputs with the
    user's title and id, and the values of the options each filter offers.
    Assigning to [select.value] selects the first option with that value;
    when there is none, no option is selected and the value reads ['']. *)
Record Page : Type := {
  currentUserTitle : string;
  currentId : string;
  statusOptions : list string;
  projectOptions : list string;
  priorityOptions : list string;
  assigneeOptions : list string
}.

Definition select_assign (options : list string) (v : string) : jsval :=
  if existsb (String.eqb v) options then JString v else JString "".

Definition resetFilters (page : Page) (s : State) : State :=
  let isAdmin := (currentUserTitle page =? "System Administrator")%string in
  let f :=
    {| statusFilter := select_assign (statusOptions page) "all";
       projectFilter := select_assign (projectOptions page) "all";
       priorityFilter := select_assign (priorityOptions page) "all";
       textSearch := JString "";
       assigneeFilter :=
         if isAdmin then select_assign (assigneeOptions page) "all"
         else select_assign (assigneeOptions page) (currentId page) |} in
  loadTasks (set_filters f s).

(** ** The debounce of the search box (lines 53-61)

    [debounce(func, wait)] keeps one timer: a call cancels it and starts a
    new one that is due [wait] milliseconds later and holds the arguments of
    that call; a timer that is due calls [func].  Time is the host's clock in
    milliseconds. *)
Section Debounce.
Context {A : Type}.
Variable wait : Z.

(** The pending timer: when it is due, and the arguments it holds. *)
Definition Timer : Type := option (Z * A).

(** [clearTimeout(timeout); timeout = setTimeout(..., wait);] at time [now]. *)
Definition debounced_call (now : Z) (args : A) (timeout : Timer) : Timer :=
  Some (now + wait, args).

(** The host runs the timer if it is due at [now]. *)
Definition run_timer (now : Z) (timeout : Timer) : list A * Timer :=
  match timeout with
  | Some (due, args) => if due <=? now then ([args], None) else ([], timeout)
  | None => ([], None)
  end.

(** The calls of [func] that a series of calls of the debounced function
    causes, each call with its time, the timer left at the end running
    too. *)
Fixpoint debounce_run (calls : list (Z * A)) (timeout : Timer) : list A :=
  match calls with
  | [] => match timeout with
          | Some (_, args) => [args]
          | None => []
          end
  | (now, args) :: rest =>
      let '(fired, timeout') := run_timer now timeout in
      (fired ++ debounce_run rest (debounced_call now args timeout'))%list
  end.

(** Every call comes less than [wait] after the one before. *)
Fixpoint burst (last : Z) (calls : list (Z * A)) : Prop :=
  match calls with
  | [] => True
  | (now, _) :: rest => now < last + wait /\ burst now rest
  end.

End Debounce.

(** ** Vocabulary of the further properties *)

(** The text a text field is sorted by. *)
Definition text_key (field : string) (a : Task) : string :=
  if (field =? "project")%string then toLowerCase (or_empty (project_name_of a))
  else if (field =? "assignee")%string then toLowerCase (or_empty (assignee_name_of a))
  else toLowerCase (or_empty (title a)).

(** The fields that [sortTasks] compares as texts: all but three. *)
Definition is_text_field (field : string) : bool :=
  negb ((field =? "priority") || (field =? "status") || (field =? "due_date"))%string.

(** [a] does not come after [b] in the order of strings. *)
Definition string_le (a b : string) : Prop := string_lt b a = false.

Definition text_ordered (field : string) (dir : direction) (a b : Task) : Prop :=
  match dir with
  | asc => string_le (text_key field a) (text_key field b)
  | desc => string_le (text_key field b) (text_key field a)
  end.

(** The time a task is sorted by when the field is the due date. *)
Definition due_time (Date_parse : string -> jsnum) (a : Task) : Z :=
  match due_date_value Date_parse a with
  | Int z => z
  | NaN => 0
  end.

(** The due date of the task is missing or parses. *)
Definition due_date_parses (Date_parse : string -> jsnum) (a : Task) : Prop :=
  exists z, due_date_value Date_parse a = Int z.

(** "While the detail panel counts as visible, a task is selected and the
    panel is on display." *)
Definition visible_has_selection (s : State) : Prop :=
  detailVisible s = true -> selectedTaskId s <> None /\ taskDetailContainer s = true.

(** The characters that the query of [loadTasks] is made of, besides the
    [=] and [&] that separate names and values. *)
Definition urlencoded_char (c : ascii) : bool :=
  let n := N_of_ascii c in
  ((48 <=? n) && (n <=? 57) || (65 <=? n) && (n <=? 90) || (97 <=? n) && (n <=? 122)
   || (n =? 42) || (n =? 45) || (n =? 46) || (n =? 95) || (n =? 43) || (n =? 37))%N.

Fixpoint count_char (c : ascii) (s : string) : nat :=
  match s with
  | EmptyString => O
  | String c' s' => if Ascii.eqb c c' then S (count_char c s') else count_char c s'
  end.

(** [l] picks entries of [all] in their order. *)
Fixpoint subsequence (l all : list string) : bool :=
  match l, all with
  | [], _ => true
  | _ :: _, [] => false
  | x :: l', y :: all' =>
      if (x =? y)%string then subsequence l' all' else subsequence l all'
  end.

(** A number from 0 to 99 written with two digits. *)
Definition two_digits (n : Z) : string :=
  String (ascii_of_N (48 + Z.to_N (n / 10)))
    (String (ascii_of_N (48 + Z.to_N (n mod 10))) "").

(** A form field holding an unparsable date. *)
Definition date_invalid (Date_parse : string -> jsnum) (v : jsval) : Prop :=
  truthy v = true /\ new_Date Date_parse v = NaN.

(** A form field holding no date or a date that parses. *)
Definition date_usable (Date_parse : string -> jsnum) (v : jsval) : Prop :=
  truthy v = false \/ exists z, new_Date Date_parse v = Int z.

(** ** Consistent comparators

    The standard fixes the order that [sort] returns only for a comparator
    that is consistent on the values of the array: every value ties with
    itself, ties are symmetric and transitive, and so are [<] and [>].  For
    any other comparator the order is left to the engine. *)
Definition consistent_comparator {A : Type} (cmp : A -> A -> Z) (l : list A) : Prop :=
  forall a b c, In a l -> In b l -> In c l ->
    cmp a a = 0 /\
    (cmp a b = 0 -> cmp b a = 0) /\
    (cmp a b = 0 -> cmp b c = 0 -> cmp a c = 0) /\
    (cmp a b < 0 -> cmp b c < 0 -> cmp a c < 0) /\
    (cmp a b > 0 -> cmp b c > 0 -> cmp a c > 0).

(** The comparator does not put [a] after [b]. *)
Definition in_order {A : Type} (cmp : A -> A -> Z) (a b : A) : Prop := cmp a b <= 0.

(** The tasks on which the comparator of [sortTasks] is consistent for a
    field: sorting by due date, a task whose due date is missing or parses
    (an invalid date is NaN, which ties with every date); sorting by
    priority or status, a task whose value does not name a member of
    [Object.prototype] (whose rank would be a function, NaN against every
    number); sorting by a text field, every task. *)
Definition comparable_on (Date_parse : string -> jsnum) (field : string) (a : Task)
  : Prop :=
  if (field =? "due_date")%string then due_date_parses Date_parse a
  else if (field =? "priority")%string then inherited (ToString (priority a)) = false
  else if (field =? "status")%string then inherited (ToString (status a)) = false
  else True.

(** More sample data. *)

Definition form_with_bad_date : FormData :=
  [("id", "12"); ("title", "Write report"); ("project_id", "3");
   ("start_date", "next week"); ("due_date", "")].

Definition form_for_update : FormData :=
  [("id", "12"); ("title", "Write report"); ("description", "Quarterly");
   ("type", "task"); ("status", "review"); ("priority", "high");
   ("severity", "normal"); ("project_id", "3"); ("assignee_id", "8");
   ("start_date", "2024-03-01"); ("due_date", "2024-03-15")].

Definition titled_task (i : Z) (t : string) (due : jsval) : Task :=
  {| task_id := i; title := JString t; project := None; assignee := None;
     priority := JString "medium"; status := JString "todo"; due_date := due |}.

Definition titled_state : State :=
  set_tasks [titled_task 1 "banana" (JString "2024-03-02");
             titled_task 2 "Apple" JNull;
             titled_task 3 "cherry" (JString "2024-01-15");
             titled_task 4 "apple" (JString "2024-03-02")] sample_state.

Definition employee_page : Page :=
  {| currentUserTitle := "Engineer"; currentId := "8";
     statusOptions := ["all"; "todo"; "in_progress"; "review"; "done"];
     projectOptions := ["all"; "3"];
     priorityOptions := ["all"; "low"; "medium"; "high"; "urgent"];
     assigneeOptions := ["8"] |}.

(** * Properties *)

(** ** The order of strings *)

Lemma string_compare_lt_trans (a b c : string) :
  String.compare a b = Lt -> String.compare b c = Lt -> String.compare a c = Lt.
Proof.
  revert b c.
  induction a as [|x a IH]; intros [|y b] [|z c]; simpl; try congruence.
  destruct (Ascii.compare x y) eqn:Hxy; try congruence.
  - apply Ascii.compare_eq_iff in Hxy; subst y.
    destruct (Ascii.compare x z); try congruence.
    apply IH.
  - intros _.
    destruct (Ascii.compare y z) eqn:Hyz; try congruence.
    + apply Ascii.compare_eq_iff in Hyz; subst z.
      now rewrite Hxy.
    + intros _.
      unfold Ascii.compare in *.
      rewrite N.compare_lt_iff in Hxy, Hyz.
      assert (H : (N_of_ascii x ?= N_of_ascii z)%N = Lt)
        by (apply N.compare_lt_iff; lia).
      now rewrite H.
Qed.

Lemma string_lt_trans (a b c : string) :
  string_lt a b = true -> string_lt b c = true -> string_lt a c = true.
Proof.
  unfold string_lt, String.ltb.
  destruct (String.compare a b) eqn:Hab; try discriminate.
  destruct (String.compare b c) eqn:Hbc; try discriminate.
  intros _ _.
  now rewrite (string_compare_lt_trans a b c Hab Hbc).
Qed.

Lemma string_lt_asym (a b : string) :
  string_lt a b = true -> string_lt b a = false.
Proof.
  unfold string_lt, String.ltb.
  rewrite (String.compare_antisym a b).
  destruct (String.compare b a); simpl; congruence.
Qed.

Lemma string_lt_empty_r (a : string) : string_lt a "" = false.
Proof. destruct a; reflexivity. Qed.

(** ** The relational operator on ranks and on time values *)

Lemma rank_lt_asym (x y : tableval) : rank_lt x y = true -> rank_lt y x = false.
Proof.
  destruct x, y; unfold rank_lt; simpl; try congruence;
    try (intros H; apply N.ltb_lt in H; apply N.ltb_ge; lia);
    try apply string_lt_asym.
Qed.

Lemma rank_lt_trans (x y z : tableval) :
  rank_lt x y = true -> rank_lt y z = true -> rank_lt x z = true.
Proof.
  destruct x, y, z; unfold rank_lt; simpl; try congruence;
    try (intros H1 H2; apply N.ltb_lt in H1; apply N.ltb_lt in H2;
         apply N.ltb_lt; lia);
    try apply string_lt_trans;
    try (intros H; apply N.ltb_lt in H; lia);
    try (intros _ H; apply N.ltb_lt in H; lia);
    try (rewrite string_lt_empty_r; congruence).
Qed.

Lemma num_lt_asym (x y : jsnum) : num_lt x y = true -> num_lt y x = false.
Proof.
  destruct x, y; simpl; try congruence.
  intros H; apply Z.ltb_lt in H; apply Z.ltb_ge; lia.
Qed.

Lemma num_lt_trans (x y z : jsnum) :
  num_lt x y = true -> num_lt y z = true -> num_lt x z = true.
Proof.
  destruct x, y, z; simpl; try congruence.
  intros H1 H2; apply Z.ltb_lt in H1; apply Z.ltb_lt in H2; apply Z.ltb_lt; lia.
Qed.

(** ** Insertion sort: permutation, order, stability *)

Section SortTheory.
Context {A : Type}.
Variable cmp : A -> A -> Z.

Lemma sort_insert_perm (x : A) (l : list A) :
  Permutation (x :: l) (sort_insert cmp x l).
Proof.
  induction l as [|y l IH]; simpl; [reflexivity|].
  destruct (cmp x y >? 0); [|reflexivity].
  rewrite perm_swap. now apply perm_skip.
Qed.

Lemma Array_sort_perm (l : list A) : Permutation l (Array_sort cmp l).
Proof.
  induction l as [|x l IH]; simpl; [reflexivity|].
  rewrite <- sort_insert_perm. now apply perm_skip.
Qed.

Section Sorted.
Variable key : A -> Z.
Variable P : A -> Prop.
Hypothesis cmp_key : forall a b, P a -> P b -> (cmp a b >? 0) = (key b <? key a).

Lemma sort_insert_sorted (x : A) (l : list A) :
  P x -> Forall P l ->
  StronglySorted (fun a b => key a <= key b) l ->
  StronglySorted (fun a b => key a <= key b) (sort_insert cmp x l).
Proof.
  intros Px Pl Hs.
  induction Hs as [|y l Hs IH Hy]; simpl.
  - repeat constructor.
  - inversion Pl as [|? ? Py Pl']; subst.
    rewrite (cmp_key x y Px Py).
    destruct (Z.ltb_spec (key y) (key x)) as [Hlt|Hge].
    + constructor; [now apply IH|].
      rewrite <- sort_insert_perm.
      constructor; [lia|assumption].
    + constructor; [now constructor|].
      constructor; [assumption|].
      eapply Forall_impl; [|exact Hy]. simpl. intros; lia.
Qed.

Lemma Array_sort_sorted (l : list A) :
  Forall P l -> StronglySorted (fun a b => key a <= key b) (Array_sort cmp l).
Proof.
  induction 1 as [|x l Px Pl IH]; simpl; [constructor|].
  apply sort_insert_sorted; auto.
  now rewrite <- Array_sort_perm.
Qed.

End Sorted.

Section Stable.
Variable apart : A -> A -> Prop.
Hypothesis gt_asym : forall x y, cmp x y > 0 -> ~ cmp y x > 0.
Hypothesis gt_trans : forall x y z, cmp x y > 0 -> cmp y z > 0 -> cmp x z > 0.
Hypothesis apart_gt : forall x y, apart x y -> cmp x y > 0 \/ cmp y x > 0.
Hypothesis gt_apart : forall x y, cmp x y > 0 -> apart x y.

Lemma stable_equiv_refl (l : list A) : stable_equiv apart l l.
Proof. induction l; constructor; assumption. Qed.

Lemma sort_insert_comm (x y : A) (l : list A) :
  cmp y x > 0 ->
  sort_insert cmp x (sort_insert cmp y l) = sort_insert cmp y (sort_insert cmp x l).
Proof.
  intros Hyx.
  assert (Hxy : (cmp x y >? 0) = false).
  { destruct (Z.gtb_spec (cmp x y) 0) as [H|H]; [|reflexivity].
    exfalso. apply (gt_asym y x); lia. }
  assert (Hyx' : (cmp y x >? 0) = true).
  { destruct (Z.gtb_spec (cmp y x) 0); [reflexivity|lia]. }
  induction l as [|z l IH]; simpl.
  - now rewrite Hxy, Hyx'.
  - destruct (Z.gtb_spec (cmp x z) 0) as [Hxz|Hxz].
    + assert (Hyz : (cmp y z >? 0) = true).
      { destruct (Z.gtb_spec (cmp y z) 0) as [H|H]; [reflexivity|].
        exfalso. assert (cmp y z > 0) by (apply (gt_trans y x z); lia). lia. }
      rewrite Hyz. simpl.
      destruct (Z.gtb_spec (cmp x z) 0); [|lia].
      rewrite Hyz. now rewrite IH.
    + simpl. rewrite Hyx'.
      destruct (cmp y z >? 0) eqn:Hyz; simpl.
      * destruct (Z.gtb_spec (cmp x z) 0); [lia|]. reflexivity.
      * now rewrite Hxy.
Qed.

Lemma Array_sort_respects (l l' : list A) :
  stable_equiv apart l l' -> Array_sort cmp l = Array_sort cmp l'.
Proof.
  induction 1 as [|x l l' _ IH|x y l Hxy|l l' _ IH|l l' l'' _ IH1 _ IH2]; simpl.
  - reflexivity.
  - now rewrite IH.
  - destruct (apart_gt x y Hxy) as [H|H].
    + symmetry. now apply sort_insert_comm.
    + now apply sort_insert_comm.
  - now symmetry.
  - now rewrite IH1.
Qed.

Lemma sort_insert_equiv (x : A) (l : list A) :
  stable_equiv apart (x :: l) (sort_insert cmp x l).
Proof.
  induction l as [|y l IH]; simpl.
  - apply stable_equiv_refl.
  - destruct (Z.gtb_spec (cmp x y) 0) as [H|H].
    + eapply stable_trans.
      * apply stable_swap. apply gt_apart. lia.
      * now apply stable_skip.
    + apply stable_equiv_refl.
Qed.

Lemma Array_sort_equiv (l : list A) : stable_equiv apart l (Array_sort cmp l).
Proof.
  induction l as [|x l IH]; simpl.
  - constructor.
  - eapply stable_trans; [apply stable_skip, IH|apply sort_insert_equiv].
Qed.

(** An array that is already in order is left as it is. *)
Lemma Array_sort_sorted_id (l : list A) :
  StronglySorted (fun a b => cmp a b <= 0) l -> Array_sort cmp l = l.
Proof.
  induction 1 as [|x l _ IH Hx]; simpl; [reflexivity|].
  rewrite IH. destruct l as [|y l]; simpl; [reflexivity|].
  inversion Hx as [|? ? Hxy _]; subst.
  destruct (Z.gtb_spec (cmp x y) 0); [lia|reflexivity].
Qed.

(** Whatever a sort returns: if it is in order and rearranges the array
    without exchanging elements that tie, it is what [Array_sort] returns. *)
Lemma stable_sort_unique (l l' : list A) :
  stable_equiv apart l l' ->
  StronglySorted (fun a b => cmp a b <= 0) l' ->
  l' = Array_sort cmp l.
Proof.
  intros Heq Hsorted.
  rewrite (Array_sort_respects l l' Heq).
  symmetry. now apply Array_sort_sorted_id.
Qed.

End Stable.
End SortTheory.

(** ** More on insertion sort *)

Section SortMore.
Context {A : Type}.
Variable cmp : A -> A -> Z.

(** Elements that never differ for the comparator keep their order under
    exchanges of neighbours that do. *)
Lemma filter_stable_equiv (apart : A -> A -> Prop) (P : A -> bool) (l l' : list A) :
  (forall x y, P x = true -> P y = true -> ~ apart x y) ->
  stable_equiv apart l l' -> filter P l = filter P l'.
Proof.
  intros HP.
  induction 1 as [|x l l' _ IH|x y l Hxy|l l' _ IH|l l' l'' _ IH1 _ IH2]; simpl.
  - reflexivity.
  - now rewrite IH.
  - destruct (P x) eqn:Px, (P y) eqn:Py; try reflexivity.
    exfalso. exact (HP x y Px Py Hxy).
  - now symmetry.
  - now rewrite IH1.
Qed.

(** The sort puts the array in the order [R] when the comparator decides
    [R] and [R] is transitive, on the elements in [P]. *)
Lemma Array_sort_sorted_rel (R : A -> A -> Prop) (P : A -> Prop) (l : list A) :
  (forall a b, P a -> P b -> cmp a b > 0 -> R b a) ->
  (forall a b, P a -> P b -> ~ cmp a b > 0 -> R a b) ->
  (forall a b c, P a -> P b -> P c -> R a b -> R b c -> R a c) ->
  Forall P l -> StronglySorted R (Array_sort cmp l).
Proof.
  intros Hgt Hle Htrans.
  assert (Hins : forall x s, P x -> Forall P s -> StronglySorted R s ->
                             StronglySorted R (sort_insert cmp x s)).
  { intros x s Px Ps Hs.
    induction Hs as [|y s Hs IH Hy]; simpl.
    - repeat constructor.
    - inversion Ps as [|? ? Py Ps']; subst.
      destruct (Z.gtb_spec (cmp x y) 0) as [H|H].
      + constructor; [now apply IH|].
        rewrite <- sort_insert_perm.
        constructor; [apply Hgt; auto; lia|assumption].
      + assert (Rxy : R x y) by (apply Hle; auto; lia).
        constructor; [now constructor|].
        constructor; [assumption|].
        rewrite Forall_forall in Hy, Ps' |- *.
        intros z Hz. apply (Htrans x y z); auto. }
  induction 1 as [|x l Px Pl IH]; simpl; [constructor|].
  apply Hins; auto.
  now rewrite <- Array_sort_perm.
Qed.

End SortMore.

(** ** Sorting with a consistent comparator *)

Section Consistent.
Context {A : Type}.
Variable cmp : A -> A -> Z.

Lemma consistent_comparator_perm (l l' : list A) :
  Permutation l l' -> consistent_comparator cmp l -> consistent_comparator cmp l'.
Proof.
  intros Hp Hc a b c Ha Hb Hc'.
  apply Hc; eapply Permutation_in; try eassumption; now symmetry.
Qed.

Variable l : list A.
Hypothesis consistent : consistent_comparator cmp l.

Lemma consistent_gt_lt (a b : A) :
  In a l -> In b l -> cmp a b > 0 -> cmp b a < 0.
Proof.
  intros Ha Hb Hab.
  destruct (consistent a b a Ha Hb Ha) as (Haa & _ & _ & _ & Hgt).
  destruct (consistent b a b Hb Ha Hb) as (_ & Hsym & _ & _ & _).
  lia.
Qed.

Lemma consistent_lt_gt (a b : A) :
  In a l -> In b l -> cmp a b < 0 -> cmp b a > 0.
Proof.
  intros Ha Hb Hab.
  destruct (consistent a b a Ha Hb Ha) as (Haa & _ & _ & Hlt & _).
  destruct (consistent b a b Hb Ha Hb) as (_ & Hsym & _ & _ & _).
  lia.
Qed.

Lemma in_order_trans (a b c : A) :
  In a l -> In b l -> In c l ->
  in_order cmp a b -> in_order cmp b c -> in_order cmp a c.
Proof.
  unfold in_order. intros Ha Hb Hc Hab Hbc.
  destruct (consistent a b c Ha Hb Hc) as (_ & _ & Heq & Hlt & _).
  destruct (Z.lt_total (cmp a c) 0) as [H|[H|H]]; try lia.
  pose proof (consistent_gt_lt a c Ha Hc ltac:(lia)) as Hca.
  destruct (Z.lt_total (cmp a b) 0) as [Hab'|[Hab'|Hab']]; try lia.
  - (* c < a < b, and b does not come after c *)
    destruct (consistent c a b Hc Ha Hb) as (_ & _ & _ & Hlt' & _).
    pose proof (Hlt' Hca Hab') as Hcb.
    pose proof (consistent_lt_gt c b Hc Hb Hcb). lia.
  - (* a ties with b, so b < c; with c < a this gives b < a *)
    assert (Hbc' : cmp b c < 0) by lia.
    destruct (consistent b c a Hb Hc Ha) as (_ & _ & _ & Hlt' & _).
    pose proof (Hlt' Hbc' Hca) as Hba.
    destruct (consistent a b a Ha Hb Ha) as (_ & Hsym & _ & _ & _).
    lia.
Qed.

(** With a consistent comparator the array comes out in order. *)
Lemma Array_sort_in_order : StronglySorted (in_order cmp) (Array_sort cmp l).
Proof.
  apply (Array_sort_sorted_rel cmp (in_order cmp) (fun a => In a l)).
  - intros a b Ha Hb Hgt. unfold in_order.
    pose proof (consistent_gt_lt a b Ha Hb Hgt). lia.
  - intros a b _ _ Hgt. unfold in_order. lia.
  - intros a b c. apply in_order_trans.
  - apply Forall_forall. auto.
Qed.

(** An array that is in order is left as it is, so sorting again changes
    nothing. *)
Lemma Array_sort_again : Array_sort cmp (Array_sort cmp l) = Array_sort cmp l.
Proof.
  apply Array_sort_sorted_id. exact Array_sort_in_order.
Qed.

End Consistent.

Lemma StronglySorted_weaken {A : Type} (R R' : A -> A -> Prop) (l : list A) :
  (forall a b, R a b -> R' a b) -> StronglySorted R l -> StronglySorted R' l.
Proof.
  intros HR. induction 1 as [|x l _ IH Hx]; constructor; auto.
  eapply Forall_impl; [|exact Hx]. auto.
Qed.

Create HintDb js_order discriminated.

#[local] Hint Resolve string_lt_asym rank_lt_asym num_lt_asym : js_order.
#[local] Hint Resolve string_lt_trans rank_lt_trans num_lt_trans : js_order.

(** ** The comparator of [sortTasks] *)

Section Properties.
Variable Date_parse : string -> jsnum.

Lemma compareTasks_task_lt (field : string) (dir : direction) (a b : Task) :
  compareTasks Date_parse field dir a b =
  compare_result dir (task_lt Date_parse field a b) (task_lt Date_parse field b a).
Proof.
  unfold compareTasks, task_lt, compare_with.
  repeat match goal with |- context [if ?c then _ else _] =>
    lazymatch c with
    | (field =? _)%string => destruct c
    end
  end; reflexivity.
Qed.

Lemma task_lt_asym (field : string) (a b : Task) :
  task_lt Date_parse field a b = true -> task_lt Date_parse field b a = false.
Proof.
  unfold task_lt.
  repeat match goal with |- context [if ?c then _ else _] => destruct c end;
    auto with js_order.
Qed.

Lemma task_lt_trans (field : string) (a b c : Task) :
  task_lt Date_parse field a b = true -> task_lt Date_parse field b c = true ->
  task_lt Date_parse field a c = true.
Proof.
  unfold task_lt.
  repeat match goal with |- context [if ?c then _ else _] => destruct c end;
    eauto with js_order.
Qed.

(** The comparator puts [a] after [b] exactly when the field's [<] holds
    one way round, which way depending on the direction. *)
Lemma compareTasks_gt (field : string) (dir : direction) (a b : Task) :
  compareTasks Date_parse field dir a b > 0 <->
  match dir with
  | asc => task_lt Date_parse field b a = true
  | desc => task_lt Date_parse field a b = true
  end.
Proof.
  rewrite compareTasks_task_lt. unfold compare_result.
  pose proof (task_lt_asym field a b) as Hab.
  pose proof (task_lt_asym field b a) as Hba.
  destruct dir, (task_lt Date_parse field a b), (task_lt Date_parse field b a);
    split; intros H; try lia; try reflexivity; try discriminate;
    try (specialize (Hab eq_refl); discriminate).
Qed.

Lemma compareTasks_range (field : string) (dir : direction) (a b : Task) :
  In (compareTasks Date_parse field dir a b) [-1; 0; 1].
Proof.
  rewrite compareTasks_task_lt. unfold compare_result.
  destruct dir, (task_lt Date_parse field a b), (task_lt Date_parse field b a);
    simpl; auto.
Qed.

Lemma compareTasks_gt_asym field dir (x y : Task) :
  compareTasks Date_parse field dir x y > 0 -> ~ compareTasks Date_parse field dir y x > 0.
Proof.
  rewrite !compareTasks_gt. destruct dir; intros H1 H2;
    apply task_lt_asym in H1; congruence.
Qed.

Lemma compareTasks_gt_trans field dir (x y z : Task) :
  compareTasks Date_parse field dir x y > 0 -> compareTasks Date_parse field dir y z > 0 ->
  compareTasks Date_parse field dir x z > 0.
Proof.
  rewrite !compareTasks_gt. destruct dir; eauto using task_lt_trans.
Qed.

Lemma told_apart_gt field dir (x y : Task) :
  told_apart Date_parse field x y ->
  compareTasks Date_parse field dir x y > 0 \/ compareTasks Date_parse field dir y x > 0.
Proof.
  rewrite !compareTasks_gt. unfold told_apart. destruct dir; tauto.
Qed.

Lemma gt_told_apart field dir (x y : Task) :
  compareTasks Date_parse field dir x y > 0 -> told_apart Date_parse field x y.
Proof.
  rewrite compareTasks_gt. unfold told_apart. destruct dir; tauto.
Qed.

(** Sorting one way, the other way and the first way again gives what the
    first sort gave. *)
Lemma Array_sort_round_trip (field : string) (d d' : direction) (l : list Task) :
  Array_sort (compareTasks Date_parse field d)
    (Array_sort (compareTasks Date_parse field d')
       (Array_sort (compareTasks Date_parse field d) l)) =
  Array_sort (compareTasks Date_parse field d) l.
Proof.
  assert (Hresp : forall l1 l2, stable_equiv (told_apart Date_parse field) l1 l2 ->
            Array_sort (compareTasks Date_parse field d) l1 =
            Array_sort (compareTasks Date_parse field d) l2).
  { apply Array_sort_respects.
    - apply compareTasks_gt_asym.
    - apply compareTasks_gt_trans.
    - intros x y. apply told_apart_gt. }
  assert (Hequiv : forall d0 l0, stable_equiv (told_apart Date_parse field) l0
            (Array_sort (compareTasks Date_parse field d0) l0)).
  { intros d0 l0. apply Array_sort_equiv. intros x y. apply gt_told_apart. }
  rewrite <- (Hresp _ _ (Hequiv d' _)).
  symmetry. apply Hresp, Hequiv.
Qed.

(** The model of the sort does not matter where the comparator is
    consistent: any rearrangement of the tasks that is in order for the
    comparator and exchanges no two tasks that tie is the array that
    [Array_sort] returns. *)
Lemma sorted_tasks_unique (field : string) (dir : direction) (l l' : list Task) :
  stable_equiv (told_apart Date_parse field) l l' ->
  StronglySorted (fun a b => compareTasks Date_parse field dir a b <= 0) l' ->
  l' = Array_sort (compareTasks Date_parse field dir) l.
Proof.
  apply stable_sort_unique.
  - apply compareTasks_gt_asym.
  - apply compareTasks_gt_trans.
  - intros x y. apply told_apart_gt.
Qed.

(** ** Sorting by priority and by status *)

Lemma resolved_value (table : list (string * N)) (v : jsval) :
  inherited (ToString v) = false ->
  (null_guard (table_get table (ToString v)) = TEmptyString /\ rank_in table v = 0) \/
  (exists n, null_guard (table_get table (ToString v)) = TNum n /\
             rank_in table v = Z.of_N n).
Proof.
  intros Hinh. unfold table_get, rank_in. rewrite Hinh.
  destruct (own_member table (ToString v)); simpl; eauto.
Qed.

Lemma compare_with_rank_lt (dir : direction) (x y : tableval) (rx ry : Z) :
  (x = TEmptyString /\ rx = 0) \/ (exists n, x = TNum n /\ rx = Z.of_N n) ->
  (y = TEmptyString /\ ry = 0) \/ (exists n, y = TNum n /\ ry = Z.of_N n) ->
  (compare_with rank_lt dir x y >? 0) =
  match dir with
  | asc => ry <? rx
  | desc => - ry <? - rx
  end.
Proof.
  intros [[-> ->]|(n & -> & ->)] [[-> ->]|(m & -> & ->)];
    unfold compare_with, compare_result, rank_lt; simpl;
    destruct dir;
    repeat match goal with
           | |- context [(?u <? ?v)%N] => destruct (N.ltb_spec u v)
           | |- context [?u <? ?v] => destruct (Z.ltb_spec u v)
           end; simpl; try reflexivity; lia.
Qed.

(** Without names inherited from [Object.prototype] in play, the comparator
    compares ranks, a value outside the table counting as rank 0. *)
Lemma compareTasks_priority_rank (dir : direction) (a b : Task) :
  inherited (ToString (priority a)) = false ->
  inherited (ToString (priority b)) = false ->
  (compareTasks Date_parse "priority" dir a b >? 0) =
  match dir with
  | asc => priority_rank b <? priority_rank a
  | desc => - priority_rank b <? - priority_rank a
  end.
Proof.
  intros Ha Hb.
  apply (compare_with_rank_lt dir (priority_value a) (priority_value b));
    apply resolved_value; assumption.
Qed.

Lemma compareTasks_status_rank (dir : direction) (a b : Task) :
  inherited (ToString (status a)) = false ->
  inherited (ToString (status b)) = false ->
  (compareTasks Date_parse "status" dir a b >? 0) =
  match dir with
  | asc => status_rank b <? status_rank a
  | desc => - status_rank b <? - status_rank a
  end.
Proof.
  intros Ha Hb.
  apply (compare_with_rank_lt dir (status_value a) (status_value b));
    apply resolved_value; assumption.
Qed.

Lemma has_table_priority_resolved (t : Task) :
  has_table_priority t -> inherited (ToString (priority t)) = false.
Proof.
  unfold has_table_priority. simpl.
  intros H. decompose [or] H; try contradiction;
    match goal with H : JString _ = priority _ |- _ => rewrite <- H end; reflexivity.
Qed.

Lemma has_table_status_resolved (t : Task) :
  has_table_status t -> inherited (ToString (status t)) = false.
Proof.
  unfold has_table_status. simpl.
  intros H. decompose [or] H; try contradiction;
    match goal with H : JString _ = status _ |- _ => rewrite <- H end; reflexivity.
Qed.

Lemma Array_sort_ordered_by (cmp : direction -> Task -> Task -> Z)
  (rank : Task -> Z) (P : Task -> Prop) (dir : direction) (l : list Task) :
  (forall d a b, P a -> P b ->
     (cmp d a b >? 0) = match d with
                        | asc => rank b <? rank a
                        | desc => - rank b <? - rank a
                        end) ->
  Forall P l ->
  StronglySorted (ordered_by rank dir) (Array_sort (cmp dir) l).
Proof.
  intros Hcmp Hl. destruct dir.
  - apply (Array_sort_sorted (cmp asc) rank P); [|assumption].
    intros a b Pa Pb. apply (Hcmp asc a b Pa Pb).
  - apply (StronglySorted_weaken (fun a b => - rank a <= - rank b)).
    + unfold ordered_by. intros; lia.
    + apply (Array_sort_sorted (cmp desc) (fun t => - rank t) P); [|assumption].
      intros a b Pa Pb. apply (Hcmp desc a b Pa Pb).
Qed.

(** C1.  Sorting by priority orders the tasks by the rank table urgent = 0,
    high = 1, medium = 2, low = 3, and sorting by status by todo = 0,
    in_progress = 1, review = 2, done = 3: whatever the order of the task
    list, [sortTasks] returns a rearrangement of it in which the ranks never
    decrease (ascending) or never increase (descending).  The tasks are those
    of the data model, whose priority and status are among the four values
    of the table. *)
Theorem sortTasks_orders_by_rank_table (s : State) :
  (currentSortField s = "priority" ->
   Forall has_table_priority (tasks s) ->
   Permutation (tasks s) (tasks (sortTasks Date_parse s)) /\
   StronglySorted (ordered_by priority_rank (currentSortDirection s))
     (tasks (sortTasks Date_parse s))) /\
  (currentSortField s = "status" ->
   Forall has_table_status (tasks s) ->
   Permutation (tasks s) (tasks (sortTasks Date_parse s)) /\
   StronglySorted (ordered_by status_rank (currentSortDirection s))
     (tasks (sortTasks Date_parse s))) /\
  map (rank_in priorityOrder)
    [JString "urgent"; JString "high"; JString "medium"; JString "low"] = [0; 1; 2; 3] /\
  map (rank_in statusOrder)
    [JString "todo"; JString "in_progress"; JString "review"; JString "done"] = [0; 1; 2; 3].
Proof.
  unfold sortTasks. simpl.
  split; [|split; [|split; reflexivity]].
  - intros -> Hl. split; [apply Array_sort_perm|].
    apply (Array_sort_ordered_by (compareTasks Date_parse "priority")
             priority_rank has_table_priority); auto.
    intros d a b Ha Hb.
    apply compareTasks_priority_rank; now apply has_table_priority_resolved.
  - intros -> Hl. split; [apply Array_sort_perm|].
    apply (Array_sort_ordered_by (compareTasks Date_parse "status")
             status_rank has_table_status); auto.
    intros d a b Ha Hb.
    apply compareTasks_status_rank; now apply has_table_status_resolved.
Qed.

(** The same order when some priorities are outside the table, as long as
    none is the name of a member of [Object.prototype]: those tasks are
    placed with the urgent ones. *)
Lemma sortTasks_orders_unknown_with_first (s : State) :
  currentSortField s = "priority" ->
  Forall (fun t => inherited (ToString (priority t)) = false) (tasks s) ->
  StronglySorted (ordered_by priority_rank (currentSortDirection s))
    (tasks (sortTasks Date_parse s)).
Proof.
  unfold sortTasks. simpl. intros -> Hl.
  apply (Array_sort_ordered_by (compareTasks Date_parse "priority") priority_rank
           (fun t => inherited (ToString (priority t)) = false)); auto.
  intros d a b. apply compareTasks_priority_rank.
Qed.

(** ** Toggling the sort direction *)

Local Abbreviation show f d T st :=
  (renderTasksTable T (set_tasks T (set_sort f d st))).

Local Abbreviation flip d := (match d with asc => desc | desc => asc end).

Local Abbreviation next_direction f st :=
  (if String.eqb f (currentSortField st) then flip (currentSortDirection st) else asc).

Lemma setupSorting_click_unfold (sortField : string) (s : State) :
  setupSorting_click Date_parse sortField s =
  show sortField (next_direction sortField s)
    (Array_sort (compareTasks Date_parse sortField (next_direction sortField s)) (tasks s)) s.
Proof.
  unfold setupSorting_click, sortTasks.
  destruct (String.eqb_spec sortField (currentSortField s)) as [->|Hne]; reflexivity.
Qed.

Lemma show_overwrite (T1 T2 : list Task) f1 d1 f2 d2 (s : State) :
  show f2 d2 T2 (show f1 d1 T1 s) = show f2 d2 T2 s.
Proof.
  destruct s as [ts f d sel vis fl [body|] [count|] disp al rq];
    destruct T1, T2; reflexivity.
Qed.

Lemma show_fields (T : list Task) f d (s : State) :
  currentSortField (show f d T s) = f /\
  currentSortDirection (show f d T s) = d /\
  tasks (show f d T s) = T.
Proof.
  destruct s as [ts f0 d0 sel vis fl [body|] [count|] disp al rq];
    destruct T; simpl; auto.
Qed.

Lemma setupSorting_click_again (sortField : string) (d : direction)
  (T : list Task) (s : State) :
  setupSorting_click Date_parse sortField (show sortField d T s) =
  show sortField (flip d) (Array_sort (compareTasks Date_parse sortField (flip d)) T) s.
Proof.
  rewrite setupSorting_click_unfold.
  destruct (show_fields T sortField d s) as (-> & -> & ->).
  rewrite String.eqb_refl.
  apply show_overwrite.
Qed.

(** C3.  Where the comparator of [sortTasks] is consistent on the tasks
    (as it is on tasks whose due dates parse and whose priority and status
    do not name a member of [Object.prototype]), so that the standard fixes
    what [sort] returns: after a click on a column header has sorted the
    list, two more clicks on the same header (the direction flips and flips
    back) leave the controller exactly as it was after the first: same order
    of the tasks, same direction, same table; in between, the list is in the
    order of the other direction.  Likewise from any state whose list
    [sortTasks] has just sorted, as after a load: two clicks on the header of
    the current sort field give back the order and the direction. *)
Theorem setupSorting_click_twice_restores (sortField : string) (s : State) :
  (forall dir,
     consistent_comparator (compareTasks Date_parse sortField dir) (tasks s)) ->
  (forall dir,
     consistent_comparator (compareTasks Date_parse (currentSortField s) dir) (tasks s)) ->
  (let sorted := setupSorting_click Date_parse sortField s in
   let back := setupSorting_click Date_parse sortField sorted in
   setupSorting_click Date_parse sortField back = sorted /\
   StronglySorted
     (in_order (compareTasks Date_parse sortField (currentSortDirection sorted)))
     (tasks sorted) /\
   StronglySorted
     (in_order (compareTasks Date_parse sortField (currentSortDirection back)))
     (tasks back) /\
   currentSortDirection back <> currentSortDirection sorted) /\
  (let loaded := sortTasks Date_parse s in
   let twice := setupSorting_click Date_parse (currentSortField s)
                  (setupSorting_click Date_parse (currentSortField s) loaded) in
   StronglySorted
     (in_order (compareTasks Date_parse (currentSortField s) (currentSortDirection s)))
     (tasks loaded) /\
   tasks twice = tasks loaded /\
   currentSortDirection twice = currentSortDirection loaded).
Proof.
  intros Hfield Hcurrent. cbv zeta. split.
  - rewrite (setupSorting_click_unfold sortField s).
    rewrite !setupSorting_click_again.
    set (d := next_direction sortField s).
    set (T := Array_sort (compareTasks Date_parse sortField d) (tasks s)).
    replace (flip (flip d)) with d by (destruct d; reflexivity).
    split; [|split; [|split]].
    + unfold T. now rewrite Array_sort_round_trip.
    + destruct (show_fields T sortField d s) as (_ & -> & ->).
      apply Array_sort_in_order, Hfield.
    + match goal with |- context [show ?f ?d0 ?T0 ?s0] =>
        destruct (show_fields T0 f d0 s0) as (_ & -> & ->)
      end.
      apply Array_sort_in_order.
      apply (consistent_comparator_perm _ (tasks s)); [apply Array_sort_perm|apply Hfield].
    + match goal with |- context [show ?f (flip d) ?T0 ?s0] =>
        destruct (show_fields T0 f (flip d) s0) as (_ & -> & _)
      end.
      destruct (show_fields T sortField d s) as (_ & -> & _).
      destruct d; discriminate.
  - rewrite (setupSorting_click_unfold (currentSortField s) (sortTasks Date_parse s)).
    unfold sortTasks at 1 2 3 4 5. simpl.
    rewrite String.eqb_refl, setupSorting_click_again.
    set (d := currentSortDirection s).
    replace (flip (flip d)) with d by (destruct d; reflexivity).
    match goal with |- context [show ?f ?d0 ?T ?s0] =>
      destruct (show_fields T f d0 s0) as (_ & -> & ->)
    end.
    split; [apply Array_sort_in_order, Hcurrent|].
    split; [|reflexivity].
    now rewrite Array_sort_round_trip.
Qed.

(** ** Field values the rank tables do not know *)

Lemma outside_table_value (table : list (string * N)) (v : jsval) :
  own_member table (ToString v) = None ->
  null_guard (table_get table (ToString v)) = TEmptyString \/
  exists k, null_guard (table_get table (ToString v)) = TInherited k.
Proof.
  intros Hown. unfold table_get. rewrite Hown.
  destruct (inherited (ToString v)); simpl; eauto.
Qed.

Lemma unknown_to_value (table : list (string * N)) (v : jsval) :
  unknown_to table v ->
  table_get table (ToString v) = TUndefined /\
  null_guard (table_get table (ToString v)) = TEmptyString.
Proof.
  intros [Hown Hinh]. unfold table_get. now rewrite Hown, Hinh.
Qed.

(** Whatever is not a rank ties with rank 0. *)
Lemma outside_table_ties_with_zero (dir : direction) (x : tableval) :
  x = TEmptyString \/ (exists k, x = TInherited k) ->
  compare_with rank_lt dir x (TNum 0) = 0 /\
  compare_with rank_lt dir (TNum 0) x = 0.
Proof.
  intros [->|[k ->]]; destruct dir; split; reflexivity.
Qed.

(** [''] and the rank 0 compare alike with every number and with ['']. *)
Lemma empty_string_as_rank_zero (dir : direction) (y : tableval) (ry : Z) :
  (y = TEmptyString /\ ry = 0) \/ (exists n, y = TNum n /\ ry = Z.of_N n) ->
  compare_with rank_lt dir TEmptyString y = compare_with rank_lt dir (TNum 0) y /\
  compare_with rank_lt dir y TEmptyString = compare_with rank_lt dir y (TNum 0).
Proof.
  intros [[-> _]|(n & -> & _)]; destruct dir; split; reflexivity.
Qed.

(** The two facts for any rank table: a value outside the table ties with
    rank 0, and unless it names a member of [Object.prototype] it is replaced
    by [''] and compares as rank 0 does. *)
Lemma value_outside_table (table : list (string * N)) (v : jsval) :
  own_member table (ToString v) = None ->
  (forall dir,
     compare_with rank_lt dir (null_guard (table_get table (ToString v))) (TNum 0) = 0 /\
     compare_with rank_lt dir (TNum 0) (null_guard (table_get table (ToString v))) = 0) /\
  (inherited (ToString v) = false ->
   table_get table (ToString v) = TUndefined /\
   null_guard (table_get table (ToString v)) = TEmptyString /\
   forall dir w,
     inherited (ToString w) = false ->
     compare_with rank_lt dir (null_guard (table_get table (ToString v)))
                              (null_guard (table_get table (ToString w))) =
     compare_with rank_lt dir (TNum 0) (null_guard (table_get table (ToString w))) /\
     compare_with rank_lt dir (null_guard (table_get table (ToString w)))
                              (null_guard (table_get table (ToString v))) =
     compare_with rank_lt dir (null_guard (table_get table (ToString w))) (TNum 0)).
Proof.
  intros Hown. split.
  - intros dir. apply outside_table_ties_with_zero, outside_table_value, Hown.
  - intros Hinh.
    destruct (unknown_to_value table v (conj Hown Hinh)) as [Hu Hv].
    split; [exact Hu|]. split; [exact Hv|].
    intros dir w Hw. rewrite Hv.
    apply (empty_string_as_rank_zero dir _ (rank_in table w)).
    apply resolved_value, Hw.
Qed.

(** C10 (amended).  The comparator returns -1, 0 or 1 for any two tasks,
    whatever their fields hold.  When sorting by priority, a task whose
    priority ([undefined], [null] or a string) is not a key of the rank table
    ties with an urgent task.  Unless that priority is the name of a member
    of [Object.prototype], the table has no rank for it, the comparator puts
    the empty string in its place, and the task compares like an urgent one
    against every task whose priority is not such a name either.  The same
    holds for the status, with [todo] in the place of [urgent]. *)
Theorem unknown_rank_compares_as_first (a : Task) :
  (forall field dir b, In (compareTasks Date_parse field dir a b) [-1; 0; 1]) /\
  (own_member priorityOrder (ToString (priority a)) = None ->
   (forall dir u,
      priority u = JString "urgent" ->
      compareTasks Date_parse "priority" dir a u = 0 /\
      compareTasks Date_parse "priority" dir u a = 0) /\
   (inherited (ToString (priority a)) = false ->
    table_get priorityOrder (ToString (priority a)) = TUndefined /\
    priority_value a = TEmptyString /\
    forall dir u b,
      priority u = JString "urgent" ->
      inherited (ToString (priority b)) = false ->
      compareTasks Date_parse "priority" dir a b = compareTasks Date_parse "priority" dir u b /\
      compareTasks Date_parse "priority" dir b a = compareTasks Date_parse "priority" dir b u)) /\
  (own_member statusOrder (ToString (status a)) = None ->
   (forall dir u,
      status u = JString "todo" ->
      compareTasks Date_parse "status" dir a u = 0 /\
      compareTasks Date_parse "status" dir u a = 0) /\
   (inherited (ToString (status a)) = false ->
    table_get statusOrder (ToString (status a)) = TUndefined /\
    status_value a = TEmptyString /\
    forall dir u b,
      status u = JString "todo" ->
      inherited (ToString (status b)) = false ->
      compareTasks Date_parse "status" dir a b = compareTasks Date_parse "status" dir u b /\
      compareTasks Date_parse "status" dir b a = compareTasks Date_parse "status" dir b u)).
Proof.
  split; [intros; apply compareTasks_range|].
  split.
  - intros Hown.
    destruct (value_outside_table priorityOrder (priority a) Hown) as [Htie Hrank].
    split.
    + intros dir u Hurgent.
      assert (Hu : priority_value u = TNum 0)
        by (unfold priority_value; now rewrite Hurgent).
      change (compareTasks Date_parse "priority" dir) with
        (fun x y => compare_with rank_lt dir (priority_value x) (priority_value y)).
      cbv beta. rewrite Hu. apply Htie.
    + intros Hinh. destruct (Hrank Hinh) as (Hget & Hval & Hcmp).
      split; [exact Hget|]. split; [exact Hval|].
      intros dir u b Hurgent Hb.
      assert (Hu : priority_value u = TNum 0)
        by (unfold priority_value; now rewrite Hurgent).
      change (compareTasks Date_parse "priority" dir) with
        (fun x y => compare_with rank_lt dir (priority_value x) (priority_value y)).
      cbv beta. rewrite Hu. apply Hcmp, Hb.
  - intros Hown.
    destruct (value_outside_table statusOrder (status a) Hown) as [Htie Hrank].
    split.
    + intros dir u Htodo.
      assert (Hu : status_value u = TNum 0)
        by (unfold status_value; now rewrite Htodo).
      change (compareTasks Date_parse "status" dir) with
        (fun x y => compare_with rank_lt dir (status_value x) (status_value y)).
      cbv beta. rewrite Hu. apply Htie.
    + intros Hinh. destruct (Hrank Hinh) as (Hget & Hval & Hcmp).
      split; [exact Hget|]. split; [exact Hval|].
      intros dir u b Htodo Hb.
      assert (Hu : status_value u = TNum 0)
        by (unfold status_value; now rewrite Htodo).
      change (compareTasks Date_parse "status" dir) with
        (fun x y => compare_with rank_lt dir (status_value x) (status_value y)).
      cbv beta. rewrite Hu. apply Hcmp, Hb.
Qed.

(** ** The query of [loadTasks] *)

Lemma truthy_string (s : string) : truthy (JString s) = true <-> s <> "".
Proof.
  simpl. destruct (String.eqb_spec s ""); simpl; split; congruence.
Qed.

Lemma in_append_unless_all (name : string) (x : jsval) (p : URLSearchParams)
  (k v : string) :
  In (k, v) (append_unless_all name x p) <->
  In (k, v) p \/ (k = name /\ x = JString v /\ v <> "" /\ v <> "all").
Proof.
  unfold append_unless_all, params_append.
  destruct x as [| |s]; try (split; [tauto|intros [H|(_ & H & _)]; [exact H|discriminate]]).
  destruct (truthy (JString s)) eqn:Ht; simpl andb.
  - apply truthy_string in Ht.
    destruct (String.eqb_spec s "all") as [->|Hne]; simpl.
    + split; [tauto|]. intros [H|(_ & H & _ & Hall)]; [exact H|].
      inversion H; subst. congruence.
    + rewrite in_app_iff. simpl. split.
      * intros [H|[H|[]]]; [tauto|]. inversion H; subst. right. auto.
      * intros [H|(-> & H & _)]; [tauto|]. inversion H; subst. auto.
  - split; [tauto|]. intros [H|(_ & H & Hne & _)]; [exact H|].
    inversion H; subst. apply truthy_string in Hne. congruence.
Qed.

Lemma in_append_if_set (name : string) (x : jsval) (p : URLSearchParams)
  (k v : string) :
  In (k, v) (append_if_set name x p) <->
  In (k, v) p \/ (k = name /\ x = JString v /\ v <> "").
Proof.
  unfold append_if_set, params_append.
  destruct x as [| |s]; try (split; [tauto|intros [H|(_ & H & _)]; [exact H|discriminate]]).
  destruct (truthy (JString s)) eqn:Ht.
  - apply truthy_string in Ht.
    rewrite in_app_iff. simpl. split.
    + intros [H|[H|[]]]; [tauto|]. inversion H; subst. right. auto.
    + intros [H|(-> & H & _)]; [tauto|]. inversion H; subst. auto.
  - split; [tauto|]. intros [H|(_ & H & Hne)]; [exact H|].
    inversion H; subst. apply truthy_string in Hne. congruence.
Qed.

(** C2 (amended).  The query of [loadTasks] has a parameter [status],
    [assignee], [project] or [priority] exactly when the value of that filter
    is a string other than [''] and ['all'], and the parameter [search_text]
    exactly when the search text is a string other than [''] (the text
    ['all'] is searched for like any other).  The filters
    [{status: 'all', project: '7'}] give the query [project=7]. *)
Theorem loadTasks_params_spec (f : Filters) :
  (forall k v,
     In (k, v) (loadTasks_params f) <->
     (k = "status" /\ statusFilter f = JString v /\ v <> "" /\ v <> "all") \/
     (k = "assignee" /\ assigneeFilter f = JString v /\ v <> "" /\ v <> "all") \/
     (k = "project" /\ projectFilter f = JString v /\ v <> "" /\ v <> "all") \/
     (k = "priority" /\ priorityFilter f = JString v /\ v <> "" /\ v <> "all") \/
     (k = "search_text" /\ textSearch f = JString v /\ v <> "")) /\
  loadTasks_query {| statusFilter := JString "all"; assigneeFilter := JUndefined;
                     projectFilter := JString "7"; priorityFilter := JUndefined;
                     textSearch := JUndefined |} = "project=7".
Proof.
  split; [|reflexivity].
  intros k v. unfold loadTasks_params.
  rewrite in_append_if_set, !in_append_unless_all. simpl. tauto.
Qed.

(** ** Selecting a row *)

(** C4.  A click on the row of the selected task flips [detailVisible] and
    leaves [selectedTaskId] as it is; a click on the row of any other task
    makes that task the selected one and sets [detailVisible]. *)
Theorem handleTaskRowClick_selection (taskId : Z) (s : State) :
  let s' := handleTaskRowClick (TaskRow taskId) s in
  (selectedTaskId s = Some taskId ->
   selectedTaskId s' = Some taskId /\ detailVisible s' = negb (detailVisible s)) /\
  (selectedTaskId s <> Some taskId ->
   selectedTaskId s' = Some taskId /\ detailVisible s' = true).
Proof.
  cbv zeta. unfold handleTaskRowClick.
  destruct (selectedTaskId s) as [sel|] eqn:Hsel.
  - destruct (Z.eqb_spec sel taskId) as [->|Hne]; simpl.
    + split; [auto|congruence].
    + split; [congruence|auto].
  - simpl. split; [congruence|auto].
Qed.

(** ** Deleting a task *)

Lemma remove_task_row_selection (taskId : Z) (s : State) :
  selectedTaskId (remove_task_row taskId s) = selectedTaskId s /\
  detailVisible (remove_task_row taskId s) = detailVisible s /\
  taskDetailContainer (remove_task_row taskId s) = taskDetailContainer s /\
  tasks (remove_task_row taskId s) = tasks s.
Proof.
  unfold remove_task_row. destruct (tasksTableBody s) as [[|ids]|]; simpl; auto.
Qed.

(** C7.  When the server answers the DELETE of a task with success, and
    that task is the selected one, [selectedTaskId] becomes [null],
    [detailVisible] becomes false and the detail panel is hidden; when
    another task or none is selected, the selection is as before. *)
Theorem deleteTask_settled_selection (taskId : Z) (s : State) :
  let s' := deleteTask_settled taskId DeleteOk s in
  (selectedTaskId s = Some taskId ->
   selectedTaskId s' = None /\ detailVisible s' = false /\
   taskDetailContainer s' = false) /\
  (selectedTaskId s <> Some taskId ->
   selectedTaskId s' = selectedTaskId s /\ detailVisible s' = detailVisible s).
Proof.
  cbv zeta. unfold deleteTask_settled.
  destruct (remove_task_row_selection taskId s) as (Hsel & Hvis & _ & _).
  rewrite Hsel.
  destruct (selectedTaskId s) as [sel|] eqn:Hs.
  - destruct (Z.eqb_spec sel taskId) as [->|Hne]; simpl.
    + split; [auto|congruence].
    + split; [congruence|auto].
  - simpl. split; [congruence|auto].
Qed.

(** ** A failed load *)

Lemma load_failed_throws (r : LoadTasksResult) :
  load_failed r -> exists e, loadTasks_response r = Throw e.
Proof.
  intros [->|(status & body & ->)]; simpl; eauto.
Qed.

(** C9.  When [loadTasks] fails, by a non-OK response or by a transport
    error, the user is alerted and the table is rendered empty: the body
    shows the "No tasks found" placeholder and no task row, and the counter
    says 0 (on a page that has the table body and the counter). *)
Theorem loadTasks_failure_renders_empty (r : LoadTasksResult) (s : State) :
  load_failed r ->
  tasksTableBody s <> None ->
  tasksCount s <> None ->
  let s' := loadTasks_settled Date_parse r s in
  tasksTableBody s' = Some EmptyState /\
  displayed_rows s' = [] /\
  tasksCount s' = Some O /\
  alerts s' = (alerts s ++ ["Failed to load tasks. Please try again later."])%list.
Proof.
  intros Hfail Hbody Hcount. cbv zeta.
  destruct (load_failed_throws r Hfail) as [e He].
  unfold loadTasks_settled. rewrite He.
  unfold renderTasksTable, showErrorNotification, displayed_rows. simpl.
  destruct (tasksTableBody s); [|congruence].
  destruct (tasksCount s); [|congruence].
  simpl. auto.
Qed.

(** ** Formatting a date *)

Lemma Number_toString_head (n : jsnum) :
  exists c rest, Number_toString n = String c rest /\ c <> "I"%char.
Proof.
  destruct n as [|z]; simpl.
  - do 2 eexists. split; [reflexivity|discriminate].
  - destruct (Z.to_int z) as [u|u]; simpl.
    + destruct u; simpl; do 2 eexists; (split; [reflexivity|discriminate]).
    + do 2 eexists. split; [reflexivity|discriminate].
Qed.

(** The [catch] branch of [formatDate] is never taken. *)
Lemma formatDate_never_Invalid_date (v : jsval) :
  formatDate Date_parse v <> "Invalid date".
Proof.
  unfold formatDate.
  destruct (truthy v); simpl; [|discriminate].
  destruct (Number_toString_head
              (getUTCFullYear (TimeClip (num_add (new_Date Date_parse v) 28800000))))
    as (c & rest & -> & Hc).
  simpl. intros H. injection H as H _. contradiction.
Qed.

(** C5 (what the code does).  A falsy date ([undefined], [null], ['']) is
    formatted as ["Not set"].  A string that does not parse as a date makes
    [new Date] return an invalid date without throwing, so the [catch] is not
    entered and the result is ["NaN-NaN-NaN"]; [formatDate] never returns
    ["Invalid date"]. *)
Theorem formatDate_unparsable (s : string) :
  s <> "" ->
  Date_parse s = NaN ->
  (forall v, truthy v = false -> formatDate Date_parse v = "Not set") /\
  formatDate Date_parse (JString s) = "NaN-NaN-NaN" /\
  formatDate Date_parse (JString s) <> "Invalid date".
Proof.
  intros Hs Hparse.
  split; [intros v Hv; unfold formatDate; now rewrite Hv|].
  split; [|apply formatDate_never_Invalid_date].
  unfold formatDate.
  apply truthy_string in Hs. rewrite Hs. simpl. rewrite Hparse. reflexivity.
Qed.

(** ** Submitting the form *)

Lemma FormData_get_falsy (name : string) (fd : FormData) :
  truthy (FormData_get name fd) = false ->
  FormData_get name fd = JNull \/ FormData_get name fd = JString "".
Proof.
  destruct (FormData_get name fd) as [| |s] eqn:Hg; auto.
  - induction fd as [|[k v] fd IH]; simpl in Hg; [discriminate|].
    destruct (k =? name)%string; [discriminate|auto].
  - simpl. destruct (String.eqb_spec s ""); [subst; auto|discriminate].
Qed.

Lemma parseInt_falsy (name : string) (fd : FormData) :
  truthy (FormData_get name fd) = false -> parseInt (FormData_get name fd) = NaN.
Proof.
  intros H. destruct (FormData_get_falsy name fd H) as [->| ->]; reflexivity.
Qed.

Lemma date_field_completes (v : jsval) :
  (truthy v = true -> exists z, new_Date Date_parse v = Int z) ->
  exists d,
    (if truthy v
     then let* t := toISOString (new_Date Date_parse v) in Normal (Some t)
     else Normal None) = Normal d.
Proof.
  intros H. destruct (truthy v).
  - destruct (H eq_refl) as [z ->]. simpl. eauto.
  - eauto.
Qed.

(** C6 (what the code does).  [handleTaskSubmission] of [task_manage.js]
    does not look at the project before calling [fetch]: a form in create
    mode (no id) whose project is empty, with dates that are empty or valid,
    is sent as [POST /api/tasks] with the project id NaN. *)
Theorem handleTaskSubmission_posts_without_project (formData : FormData) (s : State) :
  truthy (FormData_get "id" formData) = false ->
  truthy (FormData_get "project_id" formData) = false ->
  truthy (FormData_get "project" formData) = false ->
  (truthy (FormData_get "start_date" formData) = true ->
   exists z, new_Date Date_parse (FormData_get "start_date" formData) = Int z) ->
  (truthy (FormData_get "due_date" formData) = true ->
   exists z, new_Date Date_parse (FormData_get "due_date" formData) = Int z) ->
  exists body,
    handleTaskSubmission Date_parse formData s =
      Normal (fetch {| req_method := "POST"; req_url := "/api/tasks";
                       req_body := Some body |} s) /\
    td_project_id body = Some NaN.
Proof.
  intros Hid Hpid Hproj Hstart Hdue.
  unfold handleTaskSubmission.
  destruct (date_field_completes _ Hstart) as [d1 ->].
  destruct (date_field_completes _ Hdue) as [d2 ->].
  simpl. rewrite Hid.
  eexists. split; [reflexivity|].
  simpl. unfold js_or. rewrite Hpid.
  now rewrite (parseInt_falsy "project" formData Hproj).
Qed.

(** The variant of [task_manage copy.js] stops such a form before any
    request. *)
Lemma handleTaskSubmission_copy_rejects (formData : FormData) (s : State) :
  is_selected (FormData_get "project_id" formData) = false ->
  handleTaskSubmission_copy Date_parse formData s =
    Normal (showNotification "Please select a project" s) /\
  requests (showNotification "Please select a project" s) = requests s.
Proof.
  intros H. unfold handleTaskSubmission_copy. rewrite H. simpl. auto.
Qed.

(** ** The selection and the loaded collection *)

Lemma renderTasksTable_keeps (l : list Task) (s : State) :
  tasks (renderTasksTable l s) = tasks s /\
  selectedTaskId (renderTasksTable l s) = selectedTaskId s /\
  detailVisible (renderTasksTable l s) = detailVisible s.
Proof.
  unfold renderTasksTable.
  destruct (tasksTableBody s), (tasksCount s), l; simpl; auto.
Qed.

Lemma renderTasksTable_rows (s : State) :
  (tasksCount s = None -> displayed_rows s = []) ->
  rows_in_collection (renderTasksTable (tasks s) s).
Proof.
  unfold rows_in_collection, renderTasksTable, displayed_rows.
  intros Hcount.
  destruct (tasksTableBody s) as [body|] eqn:Hbody, (tasksCount s) as [count|] eqn:Hc;
    simpl.
  - destruct (tasks s) eqn:Ht; simpl; rewrite ?Ht; split; try discriminate;
      auto using incl_refl, incl_nil_l.
  - rewrite Hbody, Hc. rewrite (Hcount eq_refl). auto using incl_nil_l.
  - rewrite Hbody. split; auto using incl_nil_l.
  - rewrite Hbody. split; auto using incl_nil_l.
Qed.

Lemma renderTasksTable_empty_rows (s : State) :
  rows_in_collection s -> rows_in_collection (renderTasksTable [] s).
Proof.
  unfold rows_in_collection, renderTasksTable, displayed_rows.
  intros [Hincl Hcount].
  destruct (tasksTableBody s) as [body|] eqn:Hbody, (tasksCount s) as [count|] eqn:Hc;
    simpl; try rewrite Hbody; try rewrite Hc; auto.
  split; [apply incl_nil_l|discriminate].
Qed.

Lemma replace_task_ids (taskId : Z) (task : Task) (l : list Task) :
  task_id task = taskId -> map task_id (replace_task taskId task l) = map task_id l.
Proof.
  intros Hid. induction l as [|t l IH]; simpl; [reflexivity|].
  destruct (Z.eqb_spec (task_id t) taskId) as [Heq|Hne]; simpl; congruence.
Qed.

Lemma remove_row_incl (taskId : Z) (ids : list Z) : incl (remove_row taskId ids) ids.
Proof.
  induction ids as [|i ids IH]; simpl; [apply incl_refl|].
  destruct (i =? taskId).
  - apply incl_tl, incl_refl.
  - apply incl_cons; [now left|now apply incl_tl].
Qed.

Lemma Array_sort_ids (cmp : Task -> Task -> Z) (l : list Task) (i : Z) :
  In i (map task_id l) <-> In i (map task_id (Array_sort cmp l)).
Proof.
  pose proof (Permutation_map task_id (Array_sort_perm cmp l)) as Hp.
  split; intros H.
  - now apply (Permutation_in _ Hp).
  - now apply (Permutation_in _ (Permutation_sym Hp)).
Qed.

(** [loadTasks] does not touch the selection, in success or in failure. *)
Lemma loadTasks_settled_selection (r : LoadTasksResult) (s : State) :
  selectedTaskId (loadTasks_settled Date_parse r s) = selectedTaskId s /\
  detailVisible (loadTasks_settled Date_parse r s) = detailVisible s.
Proof.
  unfold loadTasks_settled.
  destruct (loadTasks_response r) as [data|e].
  - cbv zeta.
    destruct (renderTasksTable_keeps
                (tasks (sortTasks Date_parse (set_tasks (payload_tasks data) s)))
                (sortTasks Date_parse (set_tasks (payload_tasks data) s)))
      as (_ & -> & ->).
    auto.
  - cbv zeta.
    destruct (renderTasksTable_keeps []
                (showErrorNotification "Failed to load tasks. Please try again later." s))
      as (_ & -> & ->).
    auto.
Qed.

Lemma step_keeps_invariant (ev : Event) (s : State) :
  selection_in_collection s /\ rows_in_collection s ->
  possible s ev -> keeps_selection s ev ->
  selection_in_collection (step Date_parse ev s) /\
  rows_in_collection (step Date_parse ev s).
Proof.
  intros [Hsel Hrows] Hposs Hkeep.
  destruct ev as [e|sortField| |f|r|taskId r|taskId confirmed|taskId r]; simpl.
  - (* a click on a row *)
    destruct e as [| |taskId]; simpl; auto.
    assert (Hin : In taskId (map task_id (tasks s))) by (apply Hrows, Hposs).
    unfold selection_in_collection, rows_in_collection in *.
    destruct (selectedTaskId s) as [sel|] eqn:Hs; simpl; [|auto].
    destruct (Z.eqb_spec sel taskId); simpl; auto.
  - (* a click on a header *)
    unfold setupSorting_click. cbv zeta.
    match goal with |- context [sortTasks Date_parse ?x] => set (s1 := x) end.
    assert (Hs1 : tasks s1 = tasks s /\ selectedTaskId s1 = selectedTaskId s /\
                  displayed_rows s1 = displayed_rows s /\ tasksCount s1 = tasksCount s).
    { unfold s1. destruct (sortField =? currentSortField s)%string; simpl; auto. }
    destruct Hs1 as (Ht1 & Hsel1 & Hrows1 & Hcount1).
    set (s2 := sortTasks Date_parse s1).
    destruct (renderTasksTable_keeps (tasks s2) s2) as (Ht & Hs & _).
    split.
    + unfold selection_in_collection. rewrite Hs, Ht.
      unfold s2, sortTasks. simpl. rewrite Hsel1.
      unfold selection_in_collection in Hsel.
      destruct (selectedTaskId s); [|exact I].
      apply Array_sort_ids. now rewrite Ht1.
    + apply renderTasksTable_rows.
      unfold s2, sortTasks, displayed_rows. simpl.
      fold (displayed_rows s1). rewrite Hrows1, Hcount1. apply Hrows.
  - (* closing the detail panel *)
    split; [exact I|exact Hrows].
  - (* a filter changes *)
    split; assumption.
  - (* the task list arrives, or fails to *)
    unfold loadTasks_settled.
    destruct (loadTasks_response r) as [data|e] eqn:Hr; cbv zeta.
    + set (s2 := sortTasks Date_parse (set_tasks (payload_tasks data) s)).
      destruct (renderTasksTable_keeps (tasks s2) s2) as (Ht & Hs & _).
      split.
      * unfold selection_in_collection. rewrite Hs, Ht.
        unfold s2, sortTasks. simpl.
        simpl in Hkeep. rewrite Hr in Hkeep.
        destruct (selectedTaskId s); [|exact I].
        apply Array_sort_ids. exact Hkeep.
      * apply renderTasksTable_rows.
        unfold s2, sortTasks, displayed_rows. simpl. apply Hrows.
    + set (s1 := showErrorNotification _ s).
      destruct (renderTasksTable_keeps [] s1) as (Ht & Hs & _).
      split.
      * unfold selection_in_collection. rewrite Hs, Ht. exact Hsel.
      * apply renderTasksTable_empty_rows. exact Hrows.
  - (* a task detail arrives, or fails to *)
    destruct r as [task|]; simpl; [|split; assumption].
    unfold selection_in_collection, rows_in_collection, displayed_rows in *. simpl.
    rewrite (replace_task_ids taskId task (tasks s) Hkeep). auto.
  - (* the delete button *)
    unfold deleteTask. destruct confirmed; simpl; split; assumption.
  - (* the answer to a DELETE *)
    destruct r as [|error|message]; simpl; try (split; assumption).
    destruct (remove_task_row_selection taskId s) as (Hs & _ & _ & Ht).
    assert (Hrows' : rows_in_collection (remove_task_row taskId s)).
    { unfold rows_in_collection, remove_task_row, displayed_rows in *.
      destruct Hrows as [Hincl Hcount].
      destruct (tasksTableBody s) as [[|ids]|] eqn:Hbody; simpl; rewrite ?Hbody; auto.
      split.
      - eapply incl_tran; [apply remove_row_incl|exact Hincl].
      - intros Hc. now rewrite (Hcount Hc). }
    rewrite Hs.
    destruct (selectedTaskId s) as [sel|] eqn:Hsel'.
    + destruct (sel =? taskId); simpl.
      * split; [exact I|exact Hrows'].
      * split; [|exact Hrows'].
        unfold selection_in_collection in *. simpl. rewrite Hs, Ht.
        rewrite Hsel' in Hsel. exact Hsel.
    + simpl. split; [|exact Hrows'].
      unfold selection_in_collection. simpl. now rewrite Hs.
Qed.

Lemma reachable_keeping_reachable (s : State) :
  reachable_keeping Date_parse s -> reachable Date_parse s.
Proof.
  induction 1; [apply reachable_init|now apply reachable_step].
Qed.

(** C8 (amended).  [loadTasks] never changes [selectedTaskId].  The
    selected task id is [null] or the id of a task of the loaded collection
    in every state the controller reaches by clicks on rows, headers and
    buttons, by failed loads, and by responses that keep the selection: task
    lists that still contain the selected task, and task details that are the
    task asked for. *)
Theorem selection_in_collection_when_kept :
  (forall r s, selectedTaskId (loadTasks_settled Date_parse r s) = selectedTaskId s) /\
  (forall s, reachable_keeping Date_parse s -> selection_in_collection s).
Proof.
  split; [intros; apply loadTasks_settled_selection|].
  intros s H.
  enough (selection_in_collection s /\ rows_in_collection s) by tauto.
  induction H as [f has_table has_count|s ev _ IH Hposs Hkeep].
  - unfold selection_in_collection, rows_in_collection, displayed_rows.
    destruct has_table, has_count; simpl; auto using incl_nil_l.
  - now apply step_keeps_invariant.
Qed.

End Properties.

(** * The properties at concrete inputs *)

(** Low, high, urgent, medium comes out as urgent, high, medium, low, while
    the strings themselves would put ["high"] before ["urgent"]. *)
Lemma sortTasks_orders_by_rank_table_witness :
  StronglySorted (ordered_by priority_rank asc)
    (tasks (sortTasks sample_Date_parse priority_state)) /\
  StronglySorted (ordered_by status_rank desc)
    (tasks (sortTasks sample_Date_parse status_state)) /\
  map task_id (tasks (sortTasks sample_Date_parse priority_state)) = [3; 2; 4; 1] /\
  map task_id (tasks (sortTasks sample_Date_parse status_state)) = [3; 1; 4; 2] /\
  string_lt "high" "urgent" = true.
Proof.
  destruct (sortTasks_orders_by_rank_table sample_Date_parse priority_state)
    as (Hp & _ & _).
  destruct (sortTasks_orders_by_rank_table sample_Date_parse status_state)
    as (_ & Hs & _).
  split; [|split; [|repeat split]].
  - apply Hp; [reflexivity|].
    repeat (apply Forall_cons; [unfold has_table_priority; simpl; auto 6|]).
    apply Forall_nil.
  - apply Hs; [reflexivity|].
    repeat (apply Forall_cons; [unfold has_table_status; simpl; auto 6|]).
    apply Forall_nil.
Defined.

Example setupSorting_click_three_times :
  map task_id (tasks (setupSorting_click sample_Date_parse "priority" priority_state))
    = [1; 4; 2; 3] /\
  map task_id (tasks (setupSorting_click sample_Date_parse "priority"
                        (setupSorting_click sample_Date_parse "priority" priority_state)))
    = [3; 2; 4; 1] /\
  map task_id (tasks (setupSorting_click sample_Date_parse "priority"
                        (setupSorting_click sample_Date_parse "priority"
                           (setupSorting_click sample_Date_parse "priority" priority_state))))
    = [1; 4; 2; 3].
Proof. repeat split. Qed.

(** A priority inherited from [Object.prototype] finds a value in the rank
    table that is not [undefined], is not replaced by [''], and ties with a
    low task, which an urgent task does not. *)
Lemma inherited_priority_is_not_rank_zero :
  let c := sample_task 1 (JString "constructor") JNull in
  let low := sample_task 2 (JString "low") JNull in
  let urgent := sample_task 3 (JString "urgent") JNull in
  ~ has_table_priority c /\
  table_get priorityOrder (ToString (priority c)) = TInherited "constructor" /\
  priority_value c <> TEmptyString /\
  compareTasks sample_Date_parse "priority" asc c low = 0 /\
  compareTasks sample_Date_parse "priority" asc urgent low = -1 /\
  map task_id (Array_sort (compareTasks sample_Date_parse "priority" asc) [low; c; urgent])
    = [2; 1; 3].
Proof.
  cbv zeta. split; [|split; [|split; [|repeat split]]].
  - unfold has_table_priority. simpl. intuition discriminate.
  - reflexivity.
  - discriminate.
Qed.

Lemma unknown_rank_compares_as_first_witness :
  let a := sample_task 1 (JString "critical") JUndefined in
  let urgent := sample_task 2 (JString "urgent") (JString "todo") in
  let low := sample_task 3 (JString "low") (JString "done") in
  compareTasks sample_Date_parse "priority" asc a urgent = 0 /\
  compareTasks sample_Date_parse "priority" asc a low =
    compareTasks sample_Date_parse "priority" asc urgent low /\
  compareTasks sample_Date_parse "status" desc a urgent = 0 /\
  compareTasks sample_Date_parse "status" desc low a =
    compareTasks sample_Date_parse "status" desc low urgent.
Proof.
  cbv zeta.
  destruct (unknown_rank_compares_as_first sample_Date_parse
              (sample_task 1 (JString "critical") JUndefined)) as (_ & Hp & Hs).
  destruct Hp as (Hp1 & Hp2); [reflexivity|].
  destruct Hs as (Hs1 & Hs2); [reflexivity|].
  destruct Hp2 as (_ & _ & Hp2); [reflexivity|].
  destruct Hs2 as (_ & _ & Hs2); [reflexivity|].
  destruct (Hp1 asc (sample_task 2 (JString "urgent") (JString "todo")) eq_refl)
    as (H1 & _).
  destruct (Hs1 desc (sample_task 2 (JString "urgent") (JString "todo")) eq_refl)
    as (H3 & _).
  destruct (Hp2 asc (sample_task 2 (JString "urgent") (JString "todo"))
               (sample_task 3 (JString "low") (JString "done")) eq_refl eq_refl)
    as (H2 & _).
  destruct (Hs2 desc (sample_task 2 (JString "urgent") (JString "todo"))
               (sample_task 3 (JString "low") (JString "done")) eq_refl eq_refl)
    as (_ & H4).
  auto.
Defined.

(** The search text ['all'] is sent, although it is the literal ['all']. *)
Lemma search_text_all_is_sent :
  let f := {| statusFilter := JString "all"; assigneeFilter := JString "all";
              projectFilter := JString "all"; priorityFilter := JString "all";
              textSearch := JString "all" |} in
  In ("search_text", "all") (loadTasks_params f) /\
  loadTasks_query f = "search_text=all".
Proof. cbv zeta. split; [left|]; reflexivity. Qed.

Lemma handleTaskRowClick_selection_witness :
  selectedTaskId (handleTaskRowClick (TaskRow 5) state_after_select) = Some 5 /\
  detailVisible (handleTaskRowClick (TaskRow 5) state_after_select) = false /\
  selectedTaskId (handleTaskRowClick (TaskRow 5) sample_state) = Some 5 /\
  detailVisible (handleTaskRowClick (TaskRow 5) sample_state) = true.
Proof.
  destruct (handleTaskRowClick_selection 5 state_after_select) as [H1 _].
  destruct (handleTaskRowClick_selection 5 sample_state) as [_ H2].
  destruct H1 as [Ha Hb]; [reflexivity|].
  destruct H2 as [Hc Hd]; [discriminate|].
  repeat split; assumption.
Defined.

Lemma formatDate_unparsable_witness :
  formatDate sample_Date_parse JNull = "Not set" /\
  formatDate sample_Date_parse (JString "not-a-date") = "NaN-NaN-NaN" /\
  formatDate sample_Date_parse (JString "not-a-date") <> "Invalid date".
Proof.
  destruct (formatDate_unparsable sample_Date_parse "not-a-date")
    as (Hfalsy & Hnan & Hnot); [discriminate|reflexivity|].
  split; [apply Hfalsy; reflexivity|]. split; assumption.
Defined.

Example formatDate_valid :
  formatDate sample_Date_parse (JString "2024-03-01") = "2024-03-01" /\
  formatDate (fun _ => Int 1709308800000) (JString "2024-03-01T16:00:00Z") = "2024-03-02".
Proof. split; reflexivity. Qed.

Lemma handleTaskSubmission_posts_without_project_witness :
  exists body,
    handleTaskSubmission sample_Date_parse form_without_project sample_state =
      Normal (fetch {| req_method := "POST"; req_url := "/api/tasks";
                       req_body := Some body |} sample_state) /\
    td_project_id body = Some NaN.
Proof.
  apply (handleTaskSubmission_posts_without_project sample_Date_parse
           form_without_project sample_state);
    [reflexivity|reflexivity|reflexivity
    |intros _; eexists; vm_compute; reflexivity
    |intros H; discriminate H].
Defined.

Example handleTaskSubmission_copy_rejects_form :
  handleTaskSubmission_copy sample_Date_parse form_without_project sample_state =
    Normal (alert "Please select a project" sample_state).
Proof. reflexivity. Qed.

Lemma deleteTask_settled_selection_witness :
  selectedTaskId (deleteTask_settled 5 DeleteOk state_after_select) = None /\
  detailVisible (deleteTask_settled 5 DeleteOk state_after_select) = false /\
  selectedTaskId (deleteTask_settled 7 DeleteOk state_after_select) = Some 5 /\
  detailVisible (deleteTask_settled 7 DeleteOk state_after_select) = true.
Proof.
  destruct (deleteTask_settled_selection 5 state_after_select) as [H1 _].
  destruct (deleteTask_settled_selection 7 state_after_select) as [_ H2].
  destruct H1 as (Ha & Hb & _); [reflexivity|].
  destruct H2 as [Hc Hd]; [discriminate|].
  repeat split; assumption.
Defined.

(** The selected task 5 is not in the collection that the second load
    brought. *)
Lemma reload_leaves_dangling_selection :
  reachable sample_Date_parse state_after_reload /\
  selectedTaskId state_after_reload = Some 5 /\
  map task_id (tasks state_after_reload) = [6] /\
  ~ selection_in_collection state_after_reload.
Proof.
  split; [|split; [reflexivity|split; [reflexivity|]]].
  - unfold state_after_reload, state_after_select, sample_state.
    repeat (apply reachable_step; [|simpl; auto]).
    apply reachable_init.
  - unfold selection_in_collection. simpl. intros [H|[]]. discriminate.
Qed.

Lemma selection_in_collection_when_kept_witness :
  selection_in_collection state_after_select.
Proof.
  apply (selection_in_collection_when_kept sample_Date_parse).
  unfold state_after_select, sample_state.
  repeat (apply keeping_step; [|simpl; auto|simpl; auto]).
  apply keeping_init.
Defined.

Lemma loadTasks_failure_renders_empty_witness :
  let s' := loadTasks_settled sample_Date_parse (LoadResponse false 500 None)
              state_after_select in
  displayed_rows state_after_select = [5] /\
  tasksTableBody s' = Some EmptyState /\
  displayed_rows s' = [] /\
  tasksCount s' = Some O /\
  alerts s' = ["Failed to load tasks. Please try again later."].
Proof.
  cbv zeta. split; [reflexivity|].
  apply (loadTasks_failure_renders_empty sample_Date_parse
           (LoadResponse false 500 None) state_after_select).
  - right. do 2 eexists. reflexivity.
  - discriminate.
  - discriminate.
Defined.

(** * Further properties *)

Lemma string_le_trans (a b c : string) :
  string_le a b -> string_le b c -> string_le a c.
Proof.
  unfold string_le, string_lt, String.ltb.
  rewrite (String.compare_antisym b a), (String.compare_antisym c b),
    (String.compare_antisym c a).
  destruct (String.compare a b) eqn:Hab; simpl; try discriminate;
    destruct (String.compare b c) eqn:Hbc; simpl; try discriminate; intros _ _.
  - apply String.compare_eq_iff in Hab. subst. now rewrite Hbc.
  - apply String.compare_eq_iff in Hab. subst. now rewrite Hbc.
  - apply String.compare_eq_iff in Hbc. subst. now rewrite Hab.
  - now rewrite (string_compare_lt_trans a b c Hab Hbc).
Qed.

Section MoreProperties.
Variable Date_parse : string -> jsnum.

(** ** Sorting, for every field *)

Lemma compareTasks_zero_not_apart (field : string) (dir : direction) (a b : Task) :
  compareTasks Date_parse field dir a b = 0 ->
  compareTasks Date_parse field dir b a = 0 ->
  ~ told_apart Date_parse field a b.
Proof.
  intros Hab Hba Happ.
  destruct (told_apart_gt Date_parse field dir a b Happ); lia.
Qed.

(** X1.  Where the comparator is consistent on the tasks, [sortTasks] does
    what the standard asks of a sort: it rearranges the tasks without losing
    or repeating one, the result is in the comparator's order, and it is
    stable, that is, tasks that all tie with each other come out in the
    order they came in. *)
Theorem sortTasks_stable (s : State) (P : Task -> bool) :
  consistent_comparator
    (compareTasks Date_parse (currentSortField s) (currentSortDirection s)) (tasks s) ->
  (forall a b, P a = true -> P b = true ->
     compareTasks Date_parse (currentSortField s) (currentSortDirection s) a b = 0) ->
  Permutation (tasks s) (tasks (sortTasks Date_parse s)) /\
  StronglySorted
    (in_order (compareTasks Date_parse (currentSortField s) (currentSortDirection s)))
    (tasks (sortTasks Date_parse s)) /\
  filter P (tasks (sortTasks Date_parse s)) = filter P (tasks s).
Proof.
  intros Hc HP. unfold sortTasks. simpl.
  split; [apply Array_sort_perm|].
  split; [now apply Array_sort_in_order|].
  symmetry.
  apply (filter_stable_equiv (told_apart Date_parse (currentSortField s))).
  - intros x y Px Py.
    apply (compareTasks_zero_not_apart _ (currentSortDirection s)); auto.
  - apply Array_sort_equiv. intros x y. apply gt_told_apart.
Qed.

(** X2.  Where the comparator is consistent on the tasks, sorting a second
    time changes nothing: the sorted list is in order, and a list in order
    is left as it is. *)
Theorem sortTasks_idempotent (s : State) :
  consistent_comparator
    (compareTasks Date_parse (currentSortField s) (currentSortDirection s)) (tasks s) ->
  sortTasks Date_parse (sortTasks Date_parse s) = sortTasks Date_parse s.
Proof.
  intros Hc. unfold sortTasks. simpl. rewrite (Array_sort_again _ _ Hc).
  destruct s; reflexivity.
Qed.

Lemma task_lt_text (field : string) (a b : Task) :
  is_text_field field = true ->
  task_lt Date_parse field a b = string_lt (text_key field a) (text_key field b).
Proof.
  unfold is_text_field, task_lt, text_key.
  destruct (field =? "priority")%string eqn:Hp; [discriminate|].
  destruct (field =? "status")%string eqn:Hs; [discriminate|].
  destruct (field =? "due_date")%string eqn:Hd; [discriminate|].
  intros _.
  destruct (field =? "title")%string eqn:Ht.
  - apply String.eqb_eq in Ht. subst. reflexivity.
  - destruct (field =? "project")%string, (field =? "assignee")%string; reflexivity.
Qed.

(** X3.  Sorting by title, project or assignee (and by any field name the
    comparator does not know, which it treats as the title) puts the tasks
    in the order of their lower-cased texts, a missing text counting as the
    empty string: ascending or descending with the direction. *)
Theorem sortTasks_orders_texts (s : State) :
  is_text_field (currentSortField s) = true ->
  StronglySorted (text_ordered (currentSortField s) (currentSortDirection s))
    (tasks (sortTasks Date_parse s)).
Proof.
  intros Hfield. unfold sortTasks. simpl.
  set (f := currentSortField s) in *.
  apply (Array_sort_sorted_rel _ _ (fun _ => True)).
  - intros a b _ _ Hgt. apply compareTasks_gt in Hgt.
    unfold text_ordered, string_le.
    destruct (currentSortDirection s); rewrite task_lt_text in Hgt by assumption;
      now apply string_lt_asym.
  - intros a b _ _ Hgt. rewrite compareTasks_gt in Hgt.
    unfold text_ordered, string_le.
    destruct (currentSortDirection s); rewrite task_lt_text in Hgt by assumption;
      now destruct (string_lt _ _).
  - intros a b c _ _ _. unfold text_ordered.
    destruct (currentSortDirection s); eauto using string_le_trans.
  - apply Forall_forall. auto.
Qed.

Lemma compareTasks_due_time (dir : direction) (a b : Task) :
  due_date_parses Date_parse a -> due_date_parses Date_parse b ->
  (compareTasks Date_parse "due_date" dir a b >? 0) =
  match dir with
  | asc => due_time Date_parse b <? due_time Date_parse a
  | desc => - due_time Date_parse b <? - due_time Date_parse a
  end.
Proof.
  intros [x Hx] [y Hy].
  change (compareTasks Date_parse "due_date" dir a b) with
    (compare_with num_lt dir (due_date_value Date_parse a) (due_date_value Date_parse b)).
  unfold due_time. rewrite Hx, Hy.
  unfold compare_with, compare_result, num_lt.
  destruct dir;
    repeat match goal with
           | |- context [?u <? ?v] => destruct (Z.ltb_spec u v)
           end; simpl; try reflexivity; lia.
Qed.

(** *** Where the comparator is consistent *)

Lemma compareTasks_zero (field : string) (dir : direction) (a b : Task) :
  compareTasks Date_parse field dir a b = 0 <->
  task_lt Date_parse field a b = false /\ task_lt Date_parse field b a = false.
Proof.
  rewrite compareTasks_task_lt. unfold compare_result.
  destruct dir, (task_lt Date_parse field a b), (task_lt Date_parse field b a);
    split; intros H; try lia; try tauto; destruct H; discriminate.
Qed.

Lemma compareTasks_lt_gt (field : string) (dir : direction) (a b : Task) :
  compareTasks Date_parse field dir a b < 0 <->
  compareTasks Date_parse field dir b a > 0.
Proof.
  rewrite !compareTasks_task_lt. unfold compare_result.
  pose proof (task_lt_asym Date_parse field a b) as Hab.
  destruct dir, (task_lt Date_parse field a b), (task_lt Date_parse field b a);
    split; intros H; try lia; specialize (Hab eq_refl); discriminate.
Qed.

Lemma string_lt_tie (x y : string) :
  string_lt x y = false -> string_lt y x = false -> x = y.
Proof.
  unfold string_lt, String.ltb.
  destruct (String.compare x y) eqn:H1; try discriminate;
    destruct (String.compare y x) eqn:H2; try discriminate; intros _ _;
    try (now apply String.compare_eq_iff);
    try (symmetry; now apply String.compare_eq_iff).
  rewrite String.compare_antisym, H2 in H1. discriminate.
Qed.

Lemma rank_lt_tie (x y z : tableval) :
  x = TEmptyString \/ (exists n, x = TNum n) ->
  y = TEmptyString \/ (exists n, y = TNum n) ->
  z = TEmptyString \/ (exists n, z = TNum n) ->
  rank_lt x y = false -> rank_lt y x = false ->
  rank_lt y z = false -> rank_lt z y = false ->
  rank_lt x z = false /\ rank_lt z x = false.
Proof.
  intros [->|[n ->]] [->|[m ->]] [->|[k ->]]; unfold rank_lt; simpl;
    rewrite ?N.ltb_ge; intros; split; try reflexivity; lia.
Qed.

Lemma resolved_rank_value (table : list (string * N)) (v : jsval) :
  inherited (ToString v) = false ->
  null_guard (table_get table (ToString v)) = TEmptyString \/
  exists n, null_guard (table_get table (ToString v)) = TNum n.
Proof.
  intros H. destruct (resolved_value table v H) as [[-> _]|(n & -> & _)]; eauto.
Qed.

(** Ties are transitive on tasks that are comparable on the field. *)
Lemma task_lt_tie_trans (field : string) (a b c : Task) :
  comparable_on Date_parse field a ->
  comparable_on Date_parse field b ->
  comparable_on Date_parse field c ->
  task_lt Date_parse field a b = false -> task_lt Date_parse field b a = false ->
  task_lt Date_parse field b c = false -> task_lt Date_parse field c b = false ->
  task_lt Date_parse field a c = false /\ task_lt Date_parse field c a = false.
Proof.
  assert (Htext : forall key : Task -> string,
            string_lt (key a) (key b) = false -> string_lt (key b) (key a) = false ->
            string_lt (key b) (key c) = false -> string_lt (key c) (key b) = false ->
            string_lt (key a) (key c) = false /\ string_lt (key c) (key a) = false).
  { intros key H1 H2 H3 H4.
    rewrite (string_lt_tie _ _ H1 H2). auto. }
  unfold task_lt, comparable_on.
  destruct (String.eqb_spec field "title") as [->|_];
    [intros _ _ _; apply (Htext (fun t => toLowerCase (or_empty (title t))))|].
  destruct (String.eqb_spec field "project") as [->|_];
    [intros _ _ _; apply (Htext (fun t => toLowerCase (or_empty (project_name_of t))))|].
  destruct (String.eqb_spec field "assignee") as [->|_];
    [intros _ _ _; apply (Htext (fun t => toLowerCase (or_empty (assignee_name_of t))))|].
  destruct (String.eqb_spec field "priority") as [->|_].
  { simpl. intros Ha Hb Hc.
    apply rank_lt_tie; now apply resolved_rank_value. }
  destruct (String.eqb_spec field "status") as [->|_].
  { simpl. intros Ha Hb Hc.
    apply rank_lt_tie; now apply resolved_rank_value. }
  destruct (String.eqb_spec field "due_date") as [->|_].
  { intros [x Hx] [y Hy] [z Hz]. rewrite Hx, Hy, Hz. unfold num_lt.
    rewrite !Z.ltb_ge. lia. }
  intros _ _ _. apply (Htext (fun t => toLowerCase (or_empty (title t)))).
Qed.

(** The comparator of [sortTasks] is consistent on tasks that are
    comparable on the sort field, in either direction. *)
Lemma compareTasks_consistent (field : string) (dir : direction) (l : list Task) :
  Forall (comparable_on Date_parse field) l ->
  consistent_comparator (compareTasks Date_parse field dir) l.
Proof.
  intros Hl a b c Ha Hb Hc.
  rewrite Forall_forall in Hl.
  split; [|split; [|split; [|split]]].
  - apply compareTasks_zero.
    assert (H : task_lt Date_parse field a a = false).
    { destruct (task_lt Date_parse field a a) eqn:E; [|reflexivity].
      pose proof (task_lt_asym Date_parse field a a E). congruence. }
    auto.
  - rewrite !compareTasks_zero. tauto.
  - rewrite !compareTasks_zero. intros [H1 H2] [H3 H4].
    apply (task_lt_tie_trans field a b c); auto.
  - rewrite !compareTasks_lt_gt. intros H1 H2.
    exact (compareTasks_gt_trans Date_parse field dir c b a H2 H1).
  - apply compareTasks_gt_trans.
Qed.

(** X4.  Sorting by due date puts the tasks in the order of their time
    values when every due date that is present parses; a task without a due
    date is sorted as the epoch (time 0), so ascending it comes before every
    date after 1970. *)
Theorem sortTasks_orders_due_dates (s : State) :
  currentSortField s = "due_date" ->
  Forall (due_date_parses Date_parse) (tasks s) ->
  StronglySorted (ordered_by (due_time Date_parse) (currentSortDirection s))
    (tasks (sortTasks Date_parse s)) /\
  (forall a, truthy (due_date a) = false -> due_time Date_parse a = 0).
Proof.
  intros Hfield Hall. split.
  - unfold sortTasks. simpl. rewrite Hfield.
    apply (Array_sort_ordered_by (compareTasks Date_parse "due_date")
             (due_time Date_parse) (due_date_parses Date_parse)); auto.
    intros d a b. apply compareTasks_due_time.
  - intros a Ha. unfold due_time, due_date_value. now rewrite Ha.
Qed.

(** ** The selection, the panel and the table *)

Lemma setupSorting_click_keeps (sortField : string) (s : State) :
  selectedTaskId (setupSorting_click Date_parse sortField s) = selectedTaskId s /\
  detailVisible (setupSorting_click Date_parse sortField s) = detailVisible s /\
  taskDetailContainer (setupSorting_click Date_parse sortField s) = taskDetailContainer s.
Proof.
  unfold setupSorting_click, sortTasks, renderTasksTable. cbv zeta.
  destruct (sortField =? currentSortField s)%string; simpl;
    destruct (tasksTableBody s), (tasksCount s); simpl;
    try match goal with |- context [match ?l with [] => _ | _ :: _ => _ end] =>
          destruct l end; auto.
Qed.

Lemma loadTasks_settled_keeps (r : LoadTasksResult) (s : State) :
  selectedTaskId (loadTasks_settled Date_parse r s) = selectedTaskId s /\
  detailVisible (loadTasks_settled Date_parse r s) = detailVisible s /\
  taskDetailContainer (loadTasks_settled Date_parse r s) = taskDetailContainer s.
Proof.
  unfold loadTasks_settled, sortTasks, renderTasksTable, showErrorNotification.
  destruct (loadTasks_response r); cbv zeta; simpl;
    destruct (tasksTableBody s), (tasksCount s); simpl;
    try match goal with |- context [match ?l with [] => _ | _ :: _ => _ end] =>
          destruct l end; auto.
Qed.

Lemma step_keeps_visible_has_selection (ev : Event) (s : State) :
  visible_has_selection s -> visible_has_selection (step Date_parse ev s).
Proof.
  unfold visible_has_selection. intros Hs.
  destruct ev as [e|sortField| |f|r|taskId r|taskId confirmed|taskId r]; simpl.
  - destruct e as [| |taskId]; simpl; auto.
    destruct (selectedTaskId s) as [sel|] eqn:Hsel; simpl.
    + destruct (sel =? taskId); simpl.
      * intros Hv. split; [discriminate|exact Hv].
      * intros _. split; [discriminate|reflexivity].
    + intros _. split; [discriminate|reflexivity].
  - destruct (setupSorting_click_keeps sortField s) as (-> & -> & ->). exact Hs.
  - discriminate.
  - exact Hs.
  - destruct (loadTasks_settled_keeps r s) as (-> & -> & ->). exact Hs.
  - destruct r as [task|]; simpl; [|exact Hs].
    intros Hv. split; [apply Hs, Hv|reflexivity].
  - unfold deleteTask. destruct confirmed; simpl; exact Hs.
  - destruct r as [|error|message]; simpl; try exact Hs.
    destruct (remove_task_row_selection taskId s) as (Hsel & Hvis & Hdisp & _).
    rewrite Hsel.
    destruct (selectedTaskId s) as [sel|] eqn:Hs'.
    + destruct (sel =? taskId); simpl; [discriminate|].
      rewrite Hsel, Hvis, Hdisp. exact Hs.
    + simpl. rewrite Hsel, Hvis, Hdisp. exact Hs.
Qed.

(** X5.  In every state the controller reaches, by any clicks and any
    responses, [detailVisible] implies that a task is selected and that the
    detail panel is displayed. *)
Theorem reachable_visible_has_selection (s : State) :
  reachable Date_parse s -> visible_has_selection s.
Proof.
  induction 1 as [f has_table has_count|s ev _ IH _].
  - unfold visible_has_selection. simpl. discriminate.
  - now apply step_keeps_visible_has_selection.
Qed.

Lemma replace_task_length (taskId : Z) (task : Task) (l : list Task) :
  List.length (replace_task taskId task l) = List.length l.
Proof.
  induction l as [|t l IH]; simpl; [reflexivity|].
  destruct (task_id t =? taskId); simpl; congruence.
Qed.

Lemma replace_task_absent (taskId : Z) (task : Task) (l : list Task) :
  ~ In taskId (map task_id l) -> replace_task taskId task l = l.
Proof.
  induction l as [|t l IH]; simpl; [reflexivity|].
  intros Hnot.
  destruct (Z.eqb_spec (task_id t) taskId) as [Heq|Hne]; [tauto|].
  rewrite IH; tauto.
Qed.

(** X6.  A task detail that arrives replaces at most the first task with
    the requested id: the collection keeps its length, it is not changed at
    all when no task has that id, and its ids stay as they are when the
    detail carries the requested id.  The selection is not touched, but the
    panel is put on display, also when it was closed in the meantime. *)
Theorem loadTaskDetails_settled_replaces (taskId : Z) (task : Task) (s : State) :
  let s' := loadTaskDetails_settled taskId (Some task) s in
  List.length (tasks s') = List.length (tasks s) /\
  (~ In taskId (map task_id (tasks s)) -> tasks s' = tasks s) /\
  (task_id task = taskId -> map task_id (tasks s') = map task_id (tasks s)) /\
  selectedTaskId s' = selectedTaskId s /\
  detailVisible s' = detailVisible s /\
  taskDetailContainer
    (loadTaskDetails_settled taskId (Some task) (closeTaskDetail s)) = true.
Proof.
  cbv zeta. simpl.
  split; [apply replace_task_length|].
  split; [apply replace_task_absent|].
  split; [apply replace_task_ids|].
  auto.
Qed.

Lemma remove_row_not_in (taskId : Z) (ids : list Z) :
  NoDup ids -> ~ In taskId (remove_row taskId ids).
Proof.
  induction 1 as [|i ids Hi _ IH]; simpl; [tauto|].
  destruct (Z.eqb_spec i taskId) as [->|Hne]; [assumption|].
  simpl. tauto.
Qed.

(** X7.  A successful delete takes the row out of the table but leaves the
    task in the in-memory collection and the counter as it was; the next
    click on a column header sorts and renders that collection, so the row
    of the deleted task is back. *)
Theorem deleted_task_returns_on_sort (taskId : Z) (sortField : string) (s : State) :
  tasksTableBody s <> None ->
  tasksCount s <> None ->
  NoDup (displayed_rows s) ->
  In taskId (map task_id (tasks s)) ->
  let s' := deleteTask_settled taskId DeleteOk s in
  ~ In taskId (displayed_rows s') /\
  tasks s' = tasks s /\
  tasksCount s' = tasksCount s /\
  In taskId (displayed_rows (setupSorting_click Date_parse sortField s')).
Proof.
  intros Hbody Hcount Hnodup Hin. cbv zeta.
  assert (Hrm : ~ In taskId (displayed_rows (remove_task_row taskId s)) /\
                tasks (remove_task_row taskId s) = tasks s /\
                tasksCount (remove_task_row taskId s) = tasksCount s /\
                tasksTableBody (remove_task_row taskId s) <> None).
  { unfold remove_task_row, displayed_rows in *.
    destruct (tasksTableBody s) as [[|ids]|] eqn:Hb; simpl; rewrite ?Hb; simpl.
    - repeat split; auto; discriminate.
    - repeat split; auto; try discriminate. now apply remove_row_not_in.
    - congruence. }
  destruct Hrm as (Hrows & Htasks & Hcnt & Hbody').
  set (s1 := remove_task_row taskId s) in *.
  assert (Hs' : displayed_rows (deleteTask_settled taskId DeleteOk s) = displayed_rows s1 /\
                tasks (deleteTask_settled taskId DeleteOk s) = tasks s1 /\
                tasksCount (deleteTask_settled taskId DeleteOk s) = tasksCount s1 /\
                tasksTableBody (deleteTask_settled taskId DeleteOk s) = tasksTableBody s1).
  { unfold deleteTask_settled. fold s1.
    destruct (selectedTaskId s1) as [sel|]; [destruct (sel =? taskId)|]; simpl; auto. }
  destruct Hs' as (Hr' & Ht' & Hc' & Hb').
  set (s2 := deleteTask_settled taskId DeleteOk s) in *.
  clearbody s2.
  rewrite Hr', Ht', Hc', Htasks, Hcnt.
  repeat split; auto.
  rewrite setupSorting_click_unfold.
  match goal with |- context [renderTasksTable ?T ?st] =>
    assert (Hshow : displayed_rows (renderTasksTable T st) = map task_id T)
  end.
  { unfold renderTasksTable, displayed_rows. simpl.
    rewrite Hb', Hc', Hcnt.
    destruct (tasksTableBody s1); [|congruence].
    destruct (tasksCount s); [|congruence].
    match goal with |- context [match ?l with [] => _ | _ :: _ => _ end] =>
      destruct l end; reflexivity. }
  rewrite Hshow, Ht', Htasks.
  now apply Array_sort_ids.
Qed.

(** X8.  A delete that does not succeed changes nothing but the alerts: the
    state is the old one with one more alert, whose text is never empty (the
    server's error text, or a fixed message when there is none). *)
Theorem deleteTask_failure_only_alerts (taskId : Z) (r : DeleteResult) (s : State) :
  r <> DeleteOk ->
  exists message,
    message <> "" /\
    deleteTask_settled taskId r s = alert message s.
Proof.
  intros Hr.
  destruct r as [|error|message]; [congruence| |]; simpl.
  - destruct (truthy error) eqn:Ht.
    + destruct error as [| |e]; try discriminate.
      apply truthy_string in Ht. simpl.
      destruct (String.eqb_spec e ""); [contradiction|].
      exists e. auto.
    + simpl. eexists. split; [|reflexivity]. discriminate.
  - destruct (String.eqb_spec message "").
    + eexists. split; [|reflexivity]. discriminate.
    + exists message. auto.
Qed.

(** X9.  When the task list arrives, on a page with the table body and the
    counter, the table shows exactly the tasks of the response, each once,
    in the sorted order of the collection, the counter is their number, and
    an empty response shows the placeholder. *)
Theorem loadTasks_success_renders_collection (status : Z) (data : TasksPayload)
  (s : State) :
  tasksTableBody s <> None ->
  tasksCount s <> None ->
  let s' := loadTasks_settled Date_parse (LoadResponse true status (Some data)) s in
  Permutation (payload_tasks data) (tasks s') /\
  displayed_rows s' = map task_id (tasks s') /\
  tasksCount s' = Some (List.length (payload_tasks data)) /\
  (payload_tasks data = [] -> tasksTableBody s' = Some EmptyState).
Proof.
  intros Hbody Hcount. cbv zeta.
  unfold loadTasks_settled. simpl. unfold renderTasksTable, sortTasks. simpl.
  destruct (tasksTableBody s); [|congruence].
  destruct (tasksCount s); [|congruence].
  set (T := Array_sort _ (payload_tasks data)).
  assert (Hperm : Permutation (payload_tasks data) T) by apply Array_sort_perm.
  clearbody T.
  destruct T as [|task0 T']; simpl.
  - apply Permutation_sym, Permutation_nil in Hperm. rewrite Hperm.
    repeat split; auto.
  - repeat split; auto.
    + rewrite (Permutation_length Hperm). reflexivity.
    + intros Hnil. rewrite Hnil in Hperm. apply Permutation_nil in Hperm. discriminate.
Qed.

(** ** Submitting the form: dates and the two variants *)

Lemma is_selected_truthy (v : jsval) : is_selected v = true -> truthy v = true.
Proof.
  unfold is_selected. destruct (truthy v); [reflexivity|discriminate].
Qed.

Lemma date_field_invalid (v : jsval) :
  date_invalid Date_parse v ->
  (if truthy v
   then let* t := toISOString (new_Date Date_parse v) in Normal (Some t)
   else Normal None) = Throw "RangeError: Invalid time value".
Proof.
  intros [Ht Hnan]. now rewrite Ht, Hnan.
Qed.

Lemma date_field_cases (v : jsval) :
  date_invalid Date_parse v \/
  exists d,
    (if truthy v
     then let* t := toISOString (new_Date Date_parse v) in Normal (Some t)
     else Normal None) = Normal d.
Proof.
  unfold date_invalid.
  destruct (truthy v); [|right; eauto].
  destruct (new_Date Date_parse v); simpl; [left|right]; eauto.
Qed.

(** X10.  A start date or a due date that is filled in but does not parse
    makes [handleTaskSubmission] throw a [RangeError] (from [toISOString])
    before it calls [fetch]: nothing is sent and nobody is notified.  The
    variant of [task_manage copy.js] does the same once a project is
    selected. *)
Theorem handleTaskSubmission_throws_on_bad_date (formData : FormData) (s : State) :
  date_invalid Date_parse (FormData_get "start_date" formData) \/
  date_invalid Date_parse (FormData_get "due_date" formData) ->
  handleTaskSubmission Date_parse formData s = Throw "RangeError: Invalid time value" /\
  (is_selected (FormData_get "project_id" formData) = true ->
   handleTaskSubmission_copy Date_parse formData s =
     Throw "RangeError: Invalid time value").
Proof.
  intros Hbad.
  assert (Hdates :
    (let* start_date :=
       (if truthy (FormData_get "start_date" formData)
        then let* t := toISOString (new_Date Date_parse (FormData_get "start_date" formData))
             in Normal (Some t)
        else Normal None) in
     let* due_date :=
       (if truthy (FormData_get "due_date" formData)
        then let* t := toISOString (new_Date Date_parse (FormData_get "due_date" formData))
             in Normal (Some t)
        else Normal None) in
     Normal (start_date, due_date)) = Throw "RangeError: Invalid time value").
  { destruct (date_field_cases (FormData_get "start_date" formData)) as [Hs|[d Hs]].
    - now rewrite (date_field_invalid _ Hs).
    - rewrite Hs. simpl.
      destruct Hbad as [[Ht Hn]|Hd].
      + rewrite Ht, Hn in Hs. discriminate.
      + now rewrite (date_field_invalid _ Hd). }
  split.
  - unfold handleTaskSubmission.
    destruct (if truthy (FormData_get "start_date" formData) then _ else _) as [d1|e1];
      simpl in *; [|congruence].
    destruct (if truthy (FormData_get "due_date" formData) then _ else _) as [d2|e2];
      simpl in *; congruence.
  - intros Hsel. unfold handleTaskSubmission_copy. rewrite Hsel. simpl.
    destruct (if truthy (FormData_get "start_date" formData) then _ else _) as [d1|e1];
      simpl in *; [|congruence].
    destruct (if truthy (FormData_get "due_date" formData) then _ else _) as [d2|e2];
      simpl in *; congruence.
Qed.

(** X11.  The two variants of [handleTaskSubmission] do the same on every
    form that names its project under [project_id] (not empty, not the text
    ['null'] or ['undefined']) and its assignee, if any, under [assignee_id]
    in the same way: same request or same exception. *)
Theorem handleTaskSubmission_variants_agree (formData : FormData) (s : State) :
  is_selected (FormData_get "project_id" formData) = true ->
  is_selected (FormData_get "assignee_id" formData) = true \/
  (truthy (FormData_get "assignee_id" formData) = false /\
   truthy (FormData_get "assignee" formData) = false) ->
  handleTaskSubmission Date_parse formData s =
  handleTaskSubmission_copy Date_parse formData s.
Proof.
  intros Hproj Hassignee.
  unfold handleTaskSubmission, handleTaskSubmission_copy.
  rewrite Hproj. simpl negb. cbv iota.
  unfold js_or at 1. rewrite (is_selected_truthy _ Hproj).
  assert (Ha : (if truthy (js_or (FormData_get "assignee_id" formData)
                                 (FormData_get "assignee" formData))
                then Some (parseInt (js_or (FormData_get "assignee_id" formData)
                                           (FormData_get "assignee" formData)))
                else None) =
               (if is_selected (FormData_get "assignee_id" formData)
                then Some (parseInt (FormData_get "assignee_id" formData))
                else None)).
  { destruct Hassignee as [Hsel|[H1 H2]].
    - unfold js_or. rewrite Hsel.
      pose proof (is_selected_truthy _ Hsel) as Ht. now rewrite !Ht.
    - unfold js_or, is_selected. rewrite H1. simpl. now rewrite H2. }
  rewrite Ha. reflexivity.
Qed.

(** X12.  With dates that are empty or parse, [handleTaskSubmission] calls
    [fetch] exactly once and changes nothing else: [PUT /api/tasks/<id>] when
    the form has an id, [POST /api/tasks] when it has none; the body has a
    date exactly for the date fields that are filled in. *)
Theorem handleTaskSubmission_sends_one_request (formData : FormData) (s : State) :
  date_usable Date_parse (FormData_get "start_date" formData) ->
  date_usable Date_parse (FormData_get "due_date" formData) ->
  exists body,
    handleTaskSubmission Date_parse formData s =
      Normal (fetch {| req_method := if truthy (FormData_get "id" formData)
                                     then "PUT" else "POST";
                       req_url := if truthy (FormData_get "id" formData)
                                  then "/api/tasks/" ++ or_empty (FormData_get "id" formData)
                                  else "/api/tasks";
                       req_body := Some body |} s) /\
    (td_start_date body = None <-> truthy (FormData_get "start_date" formData) = false) /\
    (td_due_date body = None <-> truthy (FormData_get "due_date" formData) = false) /\
    td_title body = FormData_get "title" formData.
Proof.
  intros Hstart Hdue.
  unfold handleTaskSubmission.
  assert (Hfield : forall v, date_usable Date_parse v ->
            exists d,
              (if truthy v
               then let* t := toISOString (new_Date Date_parse v) in Normal (Some t)
               else Normal None) = Normal d /\
              (d = None <-> truthy v = false)).
  { intros v [Hf|[z Hz]].
    - rewrite Hf. exists None. tauto.
    - destruct (truthy v).
      + rewrite Hz. simpl. eexists. split; [reflexivity|]. split; discriminate.
      + exists None. tauto. }
  destruct (Hfield _ Hstart) as (d1 & -> & H1).
  destruct (Hfield _ Hdue) as (d2 & -> & H2).
  simpl. eexists. split; [reflexivity|]. simpl. auto.
Qed.

(** ** The query of [loadTasks] and the reset of the filters *)

Lemma append_unless_all_cases (name : string) (v : jsval) (p : URLSearchParams) :
  append_unless_all name v p = p \/
  exists value, value <> "" /\ append_unless_all name v p = (p ++ [(name, value)])%list.
Proof.
  destruct v as [| |value]; simpl; auto.
  destruct (value =? "")%string eqn:He; simpl; auto.
  destruct (value =? "all")%string; simpl; auto.
  right. exists value. split; [|reflexivity].
  now apply String.eqb_neq.
Qed.

Lemma append_if_set_cases (name : string) (v : jsval) (p : URLSearchParams) :
  append_if_set name v p = p \/
  exists value, value <> "" /\ append_if_set name v p = (p ++ [(name, value)])%list.
Proof.
  destruct v as [| |value]; simpl; auto.
  destruct (value =? "")%string eqn:He; simpl; auto.
  right. exists value. split; [|reflexivity].
  now apply String.eqb_neq.
Qed.

Lemma count_char_app (c : ascii) (a b : string) :
  count_char c (a ++ b) = (count_char c a + count_char c b)%nat.
Proof.
  induction a as [|c' a IH]; simpl; [reflexivity|].
  destruct (Ascii.eqb c c'); simpl; now rewrite IH.
Qed.

Lemma urlencode_unit_no_separator (c : ascii) :
  count_char "="%char (urlencode_unit c) = O /\
  count_char "&"%char (urlencode_unit c) = O.
Proof.
  destruct c as [[] [] [] [] [] [] [] []]; vm_compute; split; reflexivity.
Qed.

Lemma urlencode_no_separator (s : string) :
  count_char "="%char (urlencode s) = O /\ count_char "&"%char (urlencode s) = O.
Proof.
  induction s as [|c s [IH1 IH2]]; simpl; [split; reflexivity|].
  rewrite !count_char_app, IH1, IH2.
  destruct (urlencode_unit_no_separator c) as [-> ->]. split; reflexivity.
Qed.

Lemma URLSearchParams_toString_separators (p : URLSearchParams) :
  count_char "="%char (URLSearchParams_toString p) = List.length p /\
  count_char "&"%char (URLSearchParams_toString p) = pred (List.length p).
Proof.
  induction p as [|[k v] rest [IH1 IH2]]; [split; reflexivity|].
  destruct (urlencode_no_separator k) as [Hk1 Hk2].
  destruct (urlencode_no_separator v) as [Hv1 Hv2].
  destruct rest as [|kv rest].
  - change (URLSearchParams_toString [(k, v)]) with (urlencode k ++ "=" ++ urlencode v).
    rewrite !count_char_app, Hk1, Hk2, Hv1, Hv2. split; reflexivity.
  - change (URLSearchParams_toString ((k, v) :: kv :: rest))
      with (urlencode k ++ "=" ++ urlencode v ++ "&" ++ URLSearchParams_toString (kv :: rest)).
    rewrite !count_char_app, Hk1, Hk2, Hv1, Hv2, IH1, IH2. split; reflexivity.
Qed.

(** X13.  Whatever the filter controls hold, the query of [loadTasks] names
    the filters in the order status, assignee, project, priority,
    search_text, each at most once and never with an empty value; names and
    values are encoded so that the query has one [=] per parameter and one
    [&] between two parameters, none inside a name or a value. *)
Theorem loadTasks_query_shape (f : Filters) :
  subsequence (map fst (loadTasks_params f))
    ["status"; "assignee"; "project"; "priority"; "search_text"] = true /\
  Forall (fun kv => snd kv <> "") (loadTasks_params f) /\
  count_char "="%char (loadTasks_query f) = List.length (loadTasks_params f) /\
  count_char "&"%char (loadTasks_query f) = pred (List.length (loadTasks_params f)).
Proof.
  split; [|split; [|apply URLSearchParams_toString_separators]].
  - unfold loadTasks_params.
    destruct (append_unless_all_cases "status" (statusFilter f) []) as [->|(v1 & _ & ->)];
    match goal with |- context [append_unless_all "assignee" ?v ?p] =>
      destruct (append_unless_all_cases "assignee" v p) as [->|(v2 & _ & ->)] end;
    match goal with |- context [append_unless_all "project" ?v ?p] =>
      destruct (append_unless_all_cases "project" v p) as [->|(v3 & _ & ->)] end;
    match goal with |- context [append_unless_all "priority" ?v ?p] =>
      destruct (append_unless_all_cases "priority" v p) as [->|(v4 & _ & ->)] end;
    match goal with |- context [append_if_set "search_text" ?v ?p] =>
      destruct (append_if_set_cases "search_text" v p) as [->|(v5 & _ & ->)] end;
    reflexivity.
  - unfold loadTasks_params.
    assert (Hu : forall name v p, Forall (fun kv : string * string => snd kv <> "") p ->
                   Forall (fun kv => snd kv <> "") (append_unless_all name v p)).
    { intros name v p Hp.
      destruct (append_unless_all_cases name v p) as [->|(value & Hv & ->)]; [exact Hp|].
      apply Forall_app. split; [exact Hp|]. constructor; [exact Hv|constructor]. }
    assert (Hs : forall name v p, Forall (fun kv : string * string => snd kv <> "") p ->
                   Forall (fun kv => snd kv <> "") (append_if_set name v p)).
    { intros name v p Hp.
      destruct (append_if_set_cases name v p) as [->|(value & Hv & ->)]; [exact Hp|].
      apply Forall_app. split; [exact Hp|]. constructor; [exact Hv|constructor]. }
    apply Hs. repeat apply Hu. constructor.
Qed.

(** X14.  [resetFilters] reloads the list with one request and leaves the
    list, the sort and the selection alone.  For the administrator the
    request has no parameter.  For anybody else it asks for the tasks
    assigned to the current user, but only when the assignee filter offers
    an option for that user: otherwise the filter reads empty and the
    request has no parameter either. *)
Theorem resetFilters_request (page : Page) (s : State) :
  let own_tasks :=
    negb (currentUserTitle page =? "System Administrator")%string
    && existsb (String.eqb (currentId page)) (assigneeOptions page)
    && negb (currentId page =? "")%string
    && negb (currentId page =? "all")%string in
  requests (resetFilters page s) =
    (requests s ++
     [GET ("/api/tasks?" ++
           (if own_tasks then "assignee=" ++ urlencode (currentId page) else ""))])%list /\
  tasks (resetFilters page s) = tasks s /\
  selectedTaskId (resetFilters page s) = selectedTaskId s /\
  detailVisible (resetFilters page s) = detailVisible s /\
  currentSortField (resetFilters page s) = currentSortField s.
Proof.
  intros own_tasks.
  split; [|repeat split].
  unfold resetFilters, loadTasks, fetch. simpl requests.
  do 2 f_equal. unfold GET. f_equal. unfold loadTasks_url. f_equal.
  unfold loadTasks_query, loadTasks_params. simpl filters.
  cbv beta iota delta [statusFilter assigneeFilter projectFilter priorityFilter textSearch].
  unfold own_tasks, select_assign.
  destruct (existsb (String.eqb "all") (statusOptions page)),
           (existsb (String.eqb "all") (projectOptions page)),
           (existsb (String.eqb "all") (priorityOptions page)),
           (existsb (String.eqb "all") (assigneeOptions page)),
           (currentUserTitle page =? "System Administrator")%string,
           (existsb (String.eqb (currentId page)) (assigneeOptions page));
    unfold append_unless_all, append_if_set, truthy;
    destruct (currentId page =? "")%string, (currentId page =? "all")%string;
    reflexivity.
Qed.

(** ** Labels and table cells *)

Lemma lower_unit_idempotent (c : ascii) : lower_unit (lower_unit c) = lower_unit c.
Proof.
  destruct c as [[] [] [] [] [] [] [] []]; vm_compute; reflexivity.
Qed.

Lemma toLowerCase_idempotent (s : string) : toLowerCase (toLowerCase s) = toLowerCase s.
Proof.
  induction s as [|c s IH]; simpl; [reflexivity|].
  now rewrite lower_unit_idempotent, IH.
Qed.

Lemma inherited_In (k : string) : inherited k = true -> In k Object_prototype_keys.
Proof.
  unfold inherited. intros H. apply existsb_exists in H.
  destruct H as (k' & Hin & Heq). apply String.eqb_eq in Heq. now subst.
Qed.

(** X15.  The label of a priority ignores its case, the rank table of
    [sortTasks] does not: a task whose priority is one of the four in
    another spelling ("High", "URGENT") is labelled like the lowercase one,
    but the table has no rank for it, so it is sorted as rank 0, with the
    urgent tasks. *)
Theorem priority_label_ignores_case_rank_does_not (a : Task) (p : string) :
  priority a = JString p ->
  toLowerCase p <> p ->
  In (toLowerCase p) ["urgent"; "high"; "medium"; "low"] ->
  getPriorityText (priority a) = getPriorityText (JString (toLowerCase p)) /\
  getPriorityClass (priority a) = getPriorityClass (JString (toLowerCase p)) /\
  getPriorityText (priority a) <> Text "Unknown" /\
  priority_value a = TEmptyString /\
  priority_rank a = 0.
Proof.
  intros Hp Hcase Hin.
  assert (Hown : own_member priorityOrder p = None).
  { unfold priorityOrder. simpl.
    destruct (p =? "urgent")%string eqn:E1;
      [apply String.eqb_eq in E1; subst; now elim Hcase|].
    destruct (p =? "high")%string eqn:E2;
      [apply String.eqb_eq in E2; subst; now elim Hcase|].
    destruct (p =? "medium")%string eqn:E3;
      [apply String.eqb_eq in E3; subst; now elim Hcase|].
    destruct (p =? "low")%string eqn:E4;
      [apply String.eqb_eq in E4; subst; now elim Hcase|].
    reflexivity. }
  assert (Hinh : inherited p = false).
  { destruct (inherited p) eqn:E; [|reflexivity].
    apply inherited_In in E. unfold Object_prototype_keys in E. simpl in E, Hin.
    repeat (destruct E as [E|E]; [subst p; vm_compute in Hin; intuition discriminate|]).
    destruct E. }
  rewrite Hp.
  unfold getPriorityText, getPriorityClass, priority_value, priority_rank, rank_in, table_get.
  rewrite Hp. simpl or_empty. simpl ToString.
  rewrite toLowerCase_idempotent, Hown, Hinh.
  repeat split.
  simpl in Hin. destruct Hin as [<-|[<-|[<-|[<-|[]]]]]; vm_compute; discriminate.
Qed.

(** X16.  Class and text of a label agree on what is unknown: the style
    class of a priority is [priority-unknown] exactly when its text is
    [Unknown], and the same for a status.  A missing value ([null],
    [undefined], ['']) is unknown. *)
Theorem label_class_and_text_agree (v : jsval) :
  (getPriorityClass v = Text "priority-unknown" <-> getPriorityText v = Text "Unknown") /\
  (getStatusClass v = Text "status-unknown" <-> getStatusText v = Text "Unknown") /\
  (truthy v = false -> getPriorityText v = Text "Unknown" /\ getStatusText v = Text "Unknown").
Proof.
  unfold getPriorityClass, getPriorityText, getStatusClass, getStatusText, label_or.
  split; [|split].
  - simpl own_text.
    destruct (_ =? "high")%string; [split; discriminate|].
    destruct (_ =? "medium")%string; [split; discriminate|].
    destruct (_ =? "low")%string; [split; discriminate|].
    destruct (_ =? "urgent")%string; [split; discriminate|].
    destruct (inherited _); split; (discriminate || reflexivity).
  - simpl own_text.
    destruct (_ =? "todo")%string; [split; discriminate|].
    destruct (_ =? "in_progress")%string; [split; discriminate|].
    destruct (_ =? "review")%string; [split; discriminate|].
    destruct (_ =? "done")%string; [split; discriminate|].
    destruct (inherited _); split; (discriminate || reflexivity).
  - intros Hv.
    assert (He : or_empty v = "").
    { destruct v as [| |s]; try reflexivity. simpl in *.
      destruct (s =? "")%string eqn:E; [now apply String.eqb_eq in E|discriminate]. }
    rewrite He. split; reflexivity.
Qed.

Lemma or_text_not_empty (v : jsval) (fallback : string) :
  fallback <> "" -> or_text v fallback <> "".
Proof.
  intros Hf. unfold or_text.
  destruct v as [| |s]; simpl; auto.
  destruct (s =? "")%string eqn:E; simpl; auto.
  now apply String.eqb_neq.
Qed.

Lemma label_or_not_empty (table : list (string * string)) (fallback k : string) :
  fallback <> "" -> label_text (label_or table fallback k) <> "".
Proof.
  intros Hf. unfold label_or.
  destruct (own_text table k) as [v|].
  - destruct (v =? "")%string eqn:E; simpl; auto. now apply String.eqb_neq.
  - destruct (inherited k); simpl; auto.
    unfold nativeText.
    destruct (k =? "__proto__")%string; [discriminate|].
    destruct (k =? "constructor")%string; discriminate.
Qed.

Lemma formatDate_not_empty (v : jsval) : formatDate Date_parse v <> "".
Proof.
  unfold formatDate.
  destruct (truthy v); simpl; [|discriminate].
  intros H.
  destruct (Number_toString _) in H; simpl in H; discriminate.
Qed.

(** X17.  No cell of a task row is empty, whatever the task holds: a
    missing title, project, assignee or due date shows its placeholder, and
    priority and status always have a class and a text. *)
Theorem row_cells_never_empty (task : Task) :
  let cells := row_cells Date_parse task in
  cell_title cells <> "" /\ cell_project cells <> "" /\ cell_assignee cells <> "" /\
  cell_priority_class cells <> "" /\ cell_priority cells <> "" /\
  cell_status_class cells <> "" /\ cell_status cells <> "" /\
  cell_due_date cells <> "".
Proof.
  simpl.
  repeat split;
    try (apply or_text_not_empty; discriminate);
    try (apply label_or_not_empty; discriminate).
  destruct (truthy (due_date task)); [apply formatDate_not_empty|discriminate].
Qed.

(** ** Formatting a date *)

Lemma civil_from_days_range (days : Z) :
  let '(_, m, d) := civil_from_days days in 1 <= m <= 12 /\ 1 <= d <= 31.
Proof.
  unfold civil_from_days.
  set (z := days + 719468).
  set (era := z / 146097).
  set (doe := z - era * 146097).
  assert (Hdoe : 0 <= doe <= 146096)
    by (unfold doe, era; Z.to_euclidean_division_equations; lia).
  clearbody doe. clear z era.
  set (yoe := (doe - doe / 1460 + doe / 36524 - doe / 146096) / 365).
  assert (Hyoe : 0 <= yoe <= 399)
    by (unfold yoe; Z.to_euclidean_division_equations; lia).
  set (doy := doe - (365 * yoe + yoe / 4 - yoe / 100)).
  assert (Hdoy : 0 <= doy <= 365)
    by (unfold doy, yoe; Z.to_euclidean_division_equations; lia).
  clearbody doy.
  set (mp := (5 * doy + 2) / 153).
  assert (Hmp : 0 <= mp <= 11)
    by (unfold mp; Z.to_euclidean_division_equations; lia).
  split.
  - destruct (mp <? 10) eqn:E; [apply Z.ltb_lt in E|apply Z.ltb_ge in E]; lia.
  - unfold mp. Z.to_euclidean_division_equations. lia.
Qed.

Lemma padStart_two_digits (n : Z) :
  0 <= n <= 31 -> padStart 2 "0" (Number_toString (Int n)) = two_digits n.
Proof.
  intros Hn.
  assert (H : forall k : nat, (k <= 31)%nat ->
            padStart 2 "0" (Number_toString (Int (Z.of_nat k))) = two_digits (Z.of_nat k)).
  { intros k Hk.
    do 32 (destruct k as [|k]; [vm_compute; reflexivity|]). lia. }
  rewrite <- (Z2Nat.id n) by lia. apply H. lia.
Qed.

(** X18.  For a date string that the host parses, [formatDate] gives the
    calendar date eight hours later (Beijing time) as year, two-digit month
    from 01 to 12 and two-digit day from 01 to 31, joined by [-]. *)
Theorem formatDate_parsed (s : string) (t : Z) :
  s <> "" ->
  Date_parse s = Int t ->
  Z.abs (t + 28800000) <= 8640000000000000 ->
  exists y m d,
    civil_from_days ((t + 28800000) / msPerDay) = (y, m, d) /\
    1 <= m <= 12 /\ 1 <= d <= 31 /\
    formatDate Date_parse (JString s) =
      Number_toString (Int y) ++ "-" ++ two_digits m ++ "-" ++ two_digits d.
Proof.
  intros Hs Hparse Hrange.
  pose proof (civil_from_days_range ((t + 28800000) / msPerDay)) as Hcivil.
  destruct (civil_from_days ((t + 28800000) / msPerDay)) as [[y m] d] eqn:Hymd.
  destruct Hcivil as [Hm Hd].
  exists y, m, d. repeat split; try lia.
  unfold formatDate. simpl truthy.
  apply String.eqb_neq in Hs. rewrite Hs. simpl negb. cbv iota.
  unfold new_Date. rewrite Hparse.
  change (8 * 60 * 60 * 1000) with 28800000.
  apply Z.leb_le in Hrange.
  unfold bind, try_catch, num_add, TimeClip, getUTCFullYear, getUTCMonth, getUTCDate.
  rewrite !Hrange, !Hymd.
  replace (m - 1 + 1) with m by lia.
  rewrite !padStart_two_digits by lia.
  reflexivity.
Qed.

(** X19.  [formatDateTimeForInput] computes hours and minutes and leaves
    them out: for every value it returns what [formatDate] returns, except
    that a missing value gives [''] instead of ['Not set']. *)
Theorem formatDateTimeForInput_is_formatDate (v : jsval) :
  formatDateTimeForInput Date_parse v =
  if truthy v then formatDate Date_parse v else "".
Proof.
  unfold formatDateTimeForInput, formatDate, getTime.
  destruct (truthy v); reflexivity.
Qed.

(** ** Debounce *)

Lemma debounce_run_pending {A : Type} (wait : Z) (calls : list (Z * A)) (t : Z * A) :
  debounce_run wait calls (Some t) <> [].
Proof.
  revert t. induction calls as [|[now args] rest IH]; intros [due a]; simpl.
  - discriminate.
  - destruct (due <=? now); simpl; [discriminate|apply IH].
Qed.

Lemma last_cons_default {A : Type} (a d : A) (l : list A) :
  last (a :: l) d = last l a.
Proof.
  revert a d. induction l as [|b l IH]; intros a d; [reflexivity|].
  change (last (a :: b :: l) d) with (last (b :: l) d).
  now rewrite (IH b d), (IH b a).
Qed.

Lemma last_app_pending {A : Type} (l1 l2 : list A) (d : A) :
  l2 <> [] -> last (l1 ++ l2)%list d = last l2 d.
Proof.
  intros H. induction l1 as [|a l1 IH]; [reflexivity|].
  simpl app. destruct (l1 ++ l2)%list as [|b l] eqn:E.
  - apply app_eq_nil in E. destruct E. congruence.
  - rewrite <- IH. reflexivity.
Qed.

(** X20.  Calls of a debounced function that each come less than [wait]
    after the one before cause one call of the function, with the arguments
    of the last of them. *)
Theorem debounce_burst_calls_once {A : Type} (wait now0 : Z) (args0 : A)
    (calls : list (Z * A)) :
  burst wait now0 calls ->
  debounce_run wait ((now0, args0) :: calls) None = [last (map snd calls) args0].
Proof.
  simpl. unfold debounced_call. revert now0 args0.
  induction calls as [|[now args] rest IH]; intros now0 args0 Hburst.
  - reflexivity.
  - destruct Hburst as [Hnow Hrest].
    simpl debounce_run.
    replace (now0 + wait <=? now) with false by (symmetry; apply Z.leb_gt; lia).
    simpl. unfold debounced_call.
    rewrite (IH now args Hrest).
    f_equal. symmetry. exact (last_cons_default args args0 (map snd rest)).
Qed.

(** X21.  However the calls of a debounced function are timed, the function
    is called at most once per call, and the last thing it is called with
    are the arguments of the last call. *)
Theorem debounce_keeps_last_call {A : Type} (wait : Z) (calls : list (Z * A))
    (d : A) :
  calls <> [] ->
  (List.length (debounce_run wait calls None) <= List.length calls)%nat /\
  last (debounce_run wait calls None) d = snd (last calls (0, d)).
Proof.
  intros Hne.
  assert (Hlen : forall (l : list (Z * A)) timeout,
            (List.length (debounce_run wait l timeout) <=
             List.length l + match timeout with Some _ => 1 | None => 0 end)%nat).
  { induction l as [|[now args] rest IH]; intros [[due a]|]; simpl; try lia.
    - destruct (due <=? now); simpl.
      + specialize (IH (Some (now + wait, args))). simpl in IH.
        unfold debounced_call. lia.
      + specialize (IH (Some (now + wait, args))). simpl in IH.
        unfold debounced_call. lia.
    - specialize (IH (Some (now + wait, args))). simpl in IH.
      unfold debounced_call. lia. }
  assert (Hlast : forall (l : list (Z * A)) timeout, l <> [] ->
            last (debounce_run wait l timeout) d = snd (last l (0, d))).
  { induction l as [|[now args] rest IH]; intros timeout Hl; [congruence|].
    simpl debounce_run.
    destruct (run_timer now timeout) as [fired timeout'].
    unfold debounced_call.
    destruct rest as [|c rest'].
    - simpl. now rewrite last_last.
    - change (last ((now, args) :: c :: rest') (0, d)) with (last (c :: rest') (0, d)).
      assert (Hrest : c :: rest' <> []) by discriminate.
      specialize (IH (Some (now + wait, args)) Hrest).
      unfold debounced_call in IH.
      pose proof (debounce_run_pending wait (c :: rest') (now + wait, args)) as Hp.
      rewrite <- IH. now apply last_app_pending. }
  split.
  - specialize (Hlen calls None). cbv iota in Hlen. lia.
  - now apply Hlast.
Qed.

(** ** What reaches the server *)

Lemma renderTasksTable_requests (l : list Task) (s : State) :
  requests (renderTasksTable l s) = requests s /\
  alerts (renderTasksTable l s) = alerts s.
Proof.
  unfold renderTasksTable.
  destruct (tasksTableBody s), (tasksCount s), l; split; reflexivity.
Qed.

(** X22.  The requests of the controller, event by event.  Every event
    only adds to what was sent before.  Sorting, closing the detail panel,
    a click on the selected row or beside the rows, an unconfirmed delete
    and every response that comes back send nothing.  A click on another
    task row asks for the task and then for its comments; a change of the
    filters asks for the list; a confirmed delete sends the one [DELETE].
    No request of these events has a body. *)
Theorem step_requests (ev : Event) (s : State) :
  exists new,
    requests (step Date_parse ev s) = (requests s ++ new)%list /\
    Forall (fun r => req_body r = None) new /\
    new =
      match ev with
      | RowClick (TaskRow taskId) =>
          if match selectedTaskId s with
             | Some sel => sel =? taskId
             | None => false
             end
          then []
          else [GET ("/api/tasks/" ++ Number_toString (Int taskId));
                GET ("/api/tasks/" ++ Number_toString (Int taskId) ++ "/comments")]
      | FilterChange f => [GET (loadTasks_url f)]
      | DeleteClick taskId true =>
          [{| req_method := "DELETE";
              req_url := "/api/tasks/" ++ Number_toString (Int taskId);
              req_body := None |}]
      | _ => []
      end.
Proof.
  eexists. split; [|split; [|reflexivity]].
  - destruct ev as [[| |taskId]|sortField| |f|r|taskId r|taskId [|]|taskId r]; simpl step.
    + now rewrite app_nil_r.
    + now rewrite app_nil_r.
    + unfold handleTaskRowClick.
      destruct (selectedTaskId s) as [sel|]; [destruct (sel =? taskId)|];
        simpl; rewrite <- ?app_assoc, ?app_nil_r; reflexivity.
    + unfold setupSorting_click.
      rewrite (proj1 (renderTasksTable_requests _ _)), app_nil_r.
      destruct (sortField =? currentSortField s)%string; reflexivity.
    + now rewrite app_nil_r.
    + reflexivity.
    + unfold loadTasks_settled.
      destruct (loadTasks_response r);
        rewrite (proj1 (renderTasksTable_requests _ _)), app_nil_r; reflexivity.
    + destruct r; simpl; now rewrite app_nil_r.
    + reflexivity.
    + now rewrite app_nil_r.
    + rewrite app_nil_r. unfold deleteTask_settled.
      destruct r; try reflexivity.
      unfold remove_task_row.
      destruct (tasksTableBody s) as [[|ids]|]; simpl;
        destruct (selectedTaskId s) as [sel|]; try reflexivity;
        destruct (sel =? taskId); reflexivity.
  - destruct ev as [[| |taskId]|sortField| |f|r|taskId r|taskId [|]|taskId r];
      try constructor.
    + destruct (match selectedTaskId s with Some sel => sel =? taskId | None => false end);
        repeat constructor.
    + reflexivity.
    + constructor.
    + reflexivity.
    + constructor.
Qed.

End MoreProperties.

(** ** The further properties on sample data *)

(** Sorted by due date, by the other direction and back: task 2 has no due
    date, tasks 1 and 4 share theirs and keep their order both ways. *)
Lemma setupSorting_click_twice_restores_witness :
  setupSorting_click sample_Date_parse "due_date"
    (setupSorting_click sample_Date_parse "due_date"
       (setupSorting_click sample_Date_parse "due_date" titled_state)) =
  setupSorting_click sample_Date_parse "due_date" titled_state /\
  map task_id (tasks (setupSorting_click sample_Date_parse "due_date" titled_state))
    = [2; 3; 1; 4] /\
  map task_id
    (tasks (setupSorting_click sample_Date_parse "due_date"
              (setupSorting_click sample_Date_parse "due_date" titled_state)))
    = [1; 4; 3; 2].
Proof.
  destruct (setupSorting_click_twice_restores sample_Date_parse "due_date" titled_state)
    as [(Hback & _) _].
  - intros dir. apply compareTasks_consistent.
    repeat (apply Forall_cons; [eexists; vm_compute; reflexivity|]).
    apply Forall_nil.
  - intros dir. apply compareTasks_consistent.
    repeat (apply Forall_cons; [exact I|]).
    apply Forall_nil.
  - split; [exact Hback|]. split; reflexivity.
Defined.

Lemma sortTasks_stable_witness :
  Permutation (tasks titled_state) (tasks (sortTasks sample_Date_parse titled_state)) /\
  StronglySorted (in_order (compareTasks sample_Date_parse "title" asc))
    (tasks (sortTasks sample_Date_parse titled_state)) /\
  filter (fun a => toLowerCase (or_empty (title a)) =? "apple")%string
         (tasks (sortTasks sample_Date_parse titled_state)) =
  filter (fun a => toLowerCase (or_empty (title a)) =? "apple")%string
         (tasks titled_state).
Proof.
  apply (sortTasks_stable sample_Date_parse titled_state
           (fun a => toLowerCase (or_empty (title a)) =? "apple")%string).
  - apply compareTasks_consistent.
    repeat (apply Forall_cons; [exact I|]).
    apply Forall_nil.
  - intros a b Ha Hb.
    apply String.eqb_eq in Ha, Hb.
    change (compare_with string_lt asc (toLowerCase (or_empty (title a)))
                                       (toLowerCase (or_empty (title b))) = 0).
    rewrite Ha, Hb. reflexivity.
Defined.

Lemma sortTasks_idempotent_witness :
  sortTasks sample_Date_parse
    (sortTasks sample_Date_parse (set_sort "due_date" desc titled_state)) =
  sortTasks sample_Date_parse (set_sort "due_date" desc titled_state) /\
  map task_id (tasks (sortTasks sample_Date_parse (set_sort "due_date" desc titled_state)))
    = [1; 4; 3; 2].
Proof.
  split; [|reflexivity].
  apply (sortTasks_idempotent sample_Date_parse (set_sort "due_date" desc titled_state)).
  apply compareTasks_consistent.
  repeat (apply Forall_cons; [eexists; vm_compute; reflexivity|]).
  apply Forall_nil.
Defined.

Lemma sortTasks_orders_texts_witness :
  StronglySorted (text_ordered "title" asc)
    (tasks (sortTasks sample_Date_parse titled_state)) /\
  map task_id (tasks (sortTasks sample_Date_parse titled_state)) = [2; 4; 1; 3].
Proof.
  split; [|reflexivity].
  apply (sortTasks_orders_texts sample_Date_parse titled_state). reflexivity.
Defined.

Lemma sortTasks_orders_due_dates_witness :
  StronglySorted (ordered_by (due_time sample_Date_parse) asc)
    (tasks (sortTasks sample_Date_parse (set_sort "due_date" asc titled_state))) /\
  map task_id (tasks (sortTasks sample_Date_parse (set_sort "due_date" asc titled_state)))
    = [2; 3; 1; 4].
Proof.
  split; [|reflexivity].
  apply (sortTasks_orders_due_dates sample_Date_parse
           (set_sort "due_date" asc titled_state)); [reflexivity|].
  repeat (apply Forall_cons; [eexists; vm_compute; reflexivity|]).
  apply Forall_nil.
Defined.

Lemma reachable_visible_has_selection_witness :
  visible_has_selection state_after_select /\ detailVisible state_after_select = true.
Proof.
  split; [|reflexivity].
  apply (reachable_visible_has_selection sample_Date_parse).
  unfold state_after_select, sample_state.
  repeat (apply reachable_step; [|simpl; auto]).
  apply reachable_init.
Defined.

Lemma deleted_task_returns_on_sort_witness :
  ~ In 5 (displayed_rows (deleteTask_settled 5 DeleteOk state_after_select)) /\
  tasks (deleteTask_settled 5 DeleteOk state_after_select) = tasks state_after_select /\
  tasksCount (deleteTask_settled 5 DeleteOk state_after_select) =
    tasksCount state_after_select /\
  In 5 (displayed_rows
          (setupSorting_click sample_Date_parse "title"
             (deleteTask_settled 5 DeleteOk state_after_select))).
Proof.
  apply (deleted_task_returns_on_sort sample_Date_parse 5 "title" state_after_select).
  - vm_compute. discriminate.
  - vm_compute. discriminate.
  - vm_compute. constructor; [simpl; tauto|constructor].
  - vm_compute. auto.
Defined.

Lemma deleteTask_failure_only_alerts_witness :
  exists message,
    message <> "" /\
    deleteTask_settled 5 (DeleteHttpError JNull) state_after_select =
      alert message state_after_select.
Proof.
  apply (deleteTask_failure_only_alerts 5 (DeleteHttpError JNull) state_after_select).
  discriminate.
Defined.

Lemma loadTasks_success_renders_collection_witness :
  Permutation four_tasks
    (tasks (loadTasks_settled sample_Date_parse (tasks_response four_tasks) sample_state)) /\
  displayed_rows
    (loadTasks_settled sample_Date_parse (tasks_response four_tasks) sample_state) =
  map task_id
    (tasks (loadTasks_settled sample_Date_parse (tasks_response four_tasks) sample_state)) /\
  tasksCount
    (loadTasks_settled sample_Date_parse (tasks_response four_tasks) sample_state) =
  Some 4%nat.
Proof.
  destruct (loadTasks_success_renders_collection sample_Date_parse 200
              (TasksArray four_tasks) sample_state) as (Hp & Hr & Hc & _).
  - vm_compute. discriminate.
  - vm_compute. discriminate.
  - split; [exact Hp|]. split; [exact Hr|exact Hc].
Defined.

Lemma handleTaskSubmission_throws_on_bad_date_witness :
  handleTaskSubmission sample_Date_parse form_with_bad_date sample_state =
    Throw "RangeError: Invalid time value" /\
  handleTaskSubmission_copy sample_Date_parse form_with_bad_date sample_state =
    Throw "RangeError: Invalid time value".
Proof.
  destruct (handleTaskSubmission_throws_on_bad_date sample_Date_parse
              form_with_bad_date sample_state) as [Hmain Hcopy].
  - left. split; vm_compute; reflexivity.
  - split; [exact Hmain|]. apply Hcopy. reflexivity.
Defined.

Lemma handleTaskSubmission_variants_agree_witness :
  handleTaskSubmission sample_Date_parse form_for_update sample_state =
  handleTaskSubmission_copy sample_Date_parse form_for_update sample_state.
Proof.
  apply (handleTaskSubmission_variants_agree sample_Date_parse form_for_update sample_state).
  - reflexivity.
  - left. reflexivity.
Defined.

Lemma handleTaskSubmission_sends_one_request_witness :
  exists body,
    handleTaskSubmission sample_Date_parse form_for_update sample_state =
      Normal (fetch {| req_method := "PUT"; req_url := "/api/tasks/12";
                       req_body := Some body |} sample_state) /\
    (td_start_date body = None <->
       truthy (FormData_get "start_date" form_for_update) = false) /\
    (td_due_date body = None <->
       truthy (FormData_get "due_date" form_for_update) = false) /\
    td_title body = FormData_get "title" form_for_update.
Proof.
  apply (handleTaskSubmission_sends_one_request sample_Date_parse form_for_update
           sample_state).
  - right. eexists. vm_compute. reflexivity.
  - right. eexists. vm_compute. reflexivity.
Defined.

Lemma priority_label_ignores_case_rank_does_not_witness :
  getPriorityText (JString "High") = Text "High" /\
  priority_value (sample_task 1 (JString "High") (JString "todo")) = TEmptyString /\
  priority_rank (sample_task 1 (JString "High") (JString "todo")) = 0.
Proof.
  destruct (priority_label_ignores_case_rank_does_not
              (sample_task 1 (JString "High") (JString "todo")) "High")
    as (Ht & _ & _ & Hv & Hr).
  - reflexivity.
  - vm_compute. discriminate.
  - vm_compute. auto.
  - split; [exact Ht|]. split; [exact Hv|exact Hr].
Defined.

Lemma formatDate_parsed_witness :
  exists y m d,
    civil_from_days ((1709251200000 + 28800000) / msPerDay) = (y, m, d) /\
    1 <= m <= 12 /\ 1 <= d <= 31 /\
    formatDate sample_Date_parse (JString "2024-03-01") =
      Number_toString (Int y) ++ "-" ++ two_digits m ++ "-" ++ two_digits d.
Proof.
  apply (formatDate_parsed sample_Date_parse "2024-03-01" 1709251200000).
  - discriminate.
  - vm_compute. reflexivity.
  - vm_compute. discriminate.
Defined.

Lemma debounce_burst_calls_once_witness :
  debounce_run 300 [(0, "t"); (100, "ta"); (350, "tas")] None = ["tas"].
Proof.
  apply (debounce_burst_calls_once 300 0 "t" [(100, "ta"); (350, "tas")]).
  simpl. lia.
Defined.

Lemma debounce_keeps_last_call_witness :
  le (List.length (debounce_run 300 [(0, "t"); (1000, "task")] None)) 2 /\
  last (debounce_run 300 [(0, "t"); (1000, "task")] None) "" = "task".
Proof.
  apply (debounce_keeps_last_call 300 [(0, "t"); (1000, "task")] "").
  discriminate.
Defined.
